(** * The wallet ledger of [main.go]: balances, transfers and history

    The program keeps two tables in a relational store: [wallets]
    (id, balance) and [transactions] (time, from_wallet, to_wallet,
    amount).  [DBStore] has four operations on them: [CreateWallet],
    [GetWallet], [Transfer] and [GetHistory].  The HTTP handlers around
    them only decode requests and encode answers.

    The embedding follows the Go code statement by statement:
    - a balance or an amount is a Go [float64], modelled as an IEEE-754
      binary64 value ([spec_float] with precision 53 and maximal
      exponent 1024); the arithmetic of the two UPDATE statements is the
      correctly rounded binary64 addition and subtraction, and the
      comparison [fromBalance < amount] is the IEEE comparison;
    - the store is an explicit state; every call to the driver that can
      report an error is a point where the environment may make it fail;
    - a database transaction is a state-and-error monad whose effects are
      discarded when its body fails (the deferred [tx.Rollback()]);
    - concurrent calls of [Transfer] are workers that run its statements
      one at a time against the shared store and a table of row locks.

    The first part holds the definitions, the second the properties: the
    float64 facts the ledger needs, the outcomes of [Transfer], and then
    the claims C1 to C10 of the specification, each proved, or refuted on
    a concrete run and proved in the form the code supports. *)

From Stdlib Require Import ZArith Bool.
From Stdlib Require Import Floats.SpecFloat.
From stdpp Require Import gmap strings list fin_maps.

Local Open Scope Z_scope.

(** ** Go's [float64] *)

Module Float64.

Definition prec : Z := 53.
Definition emax : Z := 1024.

Definition float64 : Type := spec_float.

Definition add : float64 -> float64 -> float64 := SFadd prec emax.
Definition sub : float64 -> float64 -> float64 := SFsub prec emax.
Definition ltb : float64 -> float64 -> bool := SFltb.
Definition leb : float64 -> float64 -> bool := SFleb.

(** The float64 nearest to an integer. *)
Definition of_Z (z : Z) : float64 := binary_normalize prec emax z 0 false.

(** The float64 denoted by the decimal literal [n / 10^k], as Go's
    compiler and [strconv.ParseFloat] read it: the correctly rounded
    quotient (both operands are exact for the literals used here). *)
Definition lit (n : Z) (k : nat) : float64 :=
  SFdiv prec emax (of_Z n) (of_Z (10 ^ Z.of_nat k)).

Definition zero : float64 := S754_zero false.

(** A finite float64: a zero, or a finite number in canonical form (the
    only form a Go value has). *)
Definition is_finite (x : float64) : bool :=
  match x with
  | S754_zero _ => true
  | S754_finite _ m e => bounded prec emax m e
  | S754_infinity _ | S754_nan => false
  end.

(** The exact value of a finite float64, counted in units of the
    smallest subnormal [2^-1074]: every finite binary64 number is an
    integral multiple of it. *)
Definition units (x : float64) : Z :=
  match x with
  | S754_finite s m e => cond_Zopp s (Z.pos m * 2 ^ (e + 1074))
  | _ => 0
  end.

(** An addition or subtraction is exact when nothing was rounded. *)
Definition exact_add (x y : float64) : Prop :=
  is_finite x = true /\ is_finite y = true /\ is_finite (add x y) = true /\
  units (add x y) = units x + units y.

Definition exact_sub (x y : float64) : Prop :=
  is_finite x = true /\ is_finite y = true /\ is_finite (sub x y) = true /\
  units (sub x y) = units x - units y.

(** A valid float64 of sign [s]: a zero, an infinity or a canonical
    finite number of that sign. *)
Definition signed (s : bool) (r : float64) : Prop :=
  valid_binary prec emax r = true /\
  (r = S754_zero s \/ r = S754_infinity s \/ exists m e, r = S754_finite s m e).

(** A balance that is not in debt: a valid float64 that is not below zero
    (and so not a NaN). *)
Definition nonneg (x : float64) : Prop :=
  valid_binary prec emax x = true /\ leb zero x = true.

End Float64.

Import Float64.

(** ** Data model *)

(** [type Wallet struct { ID string; Balance float64 }] *)
Record Wallet : Type := { ID : string; Balance : float64 }.

(** [type Transaction struct { Time time.Time; From, To string;
    Amount float64 }]; a time is an instant on the store's clock. *)
Record Transaction : Type :=
  { Time : Z; From : string; To : string; Amount : float64 }.

(** Modelled from the spec: the table declarations are not part of the
    repository.  Following the persisted layout of the specification,
    [wallets] is keyed by id and has a balance column, [transactions]
    holds the rows in the order of their insertion, each stamped by the
    store with its time; there is no other constraint (no CHECK on the
    balance, no foreign key from a transaction to its wallets).  The
    balance and amount columns hold the [float64] the Go code scans them
    into. *)
Record DB : Type :=
  { wallets : gmap string float64; transactions : list Transaction }.

Definition empty_db : DB := {| wallets := ∅; transactions := [] |}.

(** ** Errors *)

(** The error values the store operations can return: [sql.ErrNoRows]
    from [Scan], [fmt.Errorf("insufficient funds")], and whatever else
    the driver reports. *)
Inductive error : Type := ErrNoRows | ErrInsufficientFunds | ErrDriver.

(** The error kinds of the specification, and the kind each Go error
    stands for. *)
Inductive kind : Type := NotFound | InsufficientFunds | InvalidAmount | StoreError.

Definition kind_of (e : error) : kind :=
  match e with
  | ErrNoRows => NotFound
  | ErrInsufficientFunds => InsufficientFunds
  | ErrDriver => StoreError
  end.

Inductive result (A : Type) : Type :=
  | Ok (a : A)
  | Err (e : error).
Arguments Ok {A} a.
Arguments Err {A} e.

Definition is_ok {A} (r : result A) : bool :=
  match r with Ok _ => true | Err _ => false end.

Definition fails_with {A} (r : result A) (k : kind) : Prop :=
  exists e, r = Err e /\ kind_of e = k.

(** ** The environment: driver faults and the store's clock *)

(** The calls to [database/sql] whose error the code checks. *)
Inductive call : Type :=
  | CreateExec          (* CreateWallet: s.db.Exec INSERT *)
  | WalletQueryRow      (* GetWallet: s.db.QueryRow ... Scan *)
  | TxBegin             (* Transfer: s.db.Begin *)
  | TxSelect            (* Transfer: tx.QueryRow ... FOR UPDATE *)
  | TxDebit             (* Transfer: tx.Exec UPDATE of the sender *)
  | TxCredit            (* Transfer: tx.Exec UPDATE of the recipient *)
  | TxInsert            (* Transfer: tx.Exec INSERT of the record *)
  | TxCommit            (* Transfer: tx.Commit *)
  | HistoryQuery.       (* GetHistory: s.db.Query, rows.Scan, rows.Err *)

Record Env : Type :=
  { faulty : call -> bool;   (* the driver reports an error at this call *)
    now : Z }.               (* the time the store stamps on an inserted row *)

Definition healthy (t : Z) : Env := {| faulty := fun _ => false; now := t |}.

(** ** Transactions: state and error, rolled back on failure *)

Definition Tx (A : Type) : Type := DB -> result (A * DB).

Definition ret {A} (a : A) : Tx A := fun db => Ok (a, db).

Definition bind {A B} (c : Tx A) (k : A -> Tx B) : Tx B :=
  fun db =>
    match c db with
    | Ok (a, db') => k a db'
    | Err e => Err e
    end.

Definition throw {A} (e : error) : Tx A := fun _ => Err e.

Declare Scope tx_scope.
Delimit Scope tx_scope with tx.
Bind Scope tx_scope with Tx.
Notation "x <~ c ; k" := (bind c (fun x => k))
  (at level 100, c at next level, k at level 200, right associativity) : tx_scope.
Notation "c ;; k" := (bind c (fun _ => k))
  (at level 100, k at level 200, right associativity) : tx_scope.
Local Open Scope tx_scope.

(** [if err != nil { return err }] after a driver call. *)
Definition driver (env : Env) (c : call) : Tx unit :=
  fun db => if faulty env c then Err ErrDriver else Ok (tt, db).

(** [SELECT balance FROM wallets WHERE id = $1 FOR UPDATE] scanned into
    a [float64]: [sql.ErrNoRows] when no row has that id. *)
Definition select_balance (id : string) : Tx float64 :=
  fun db =>
    match wallets db !! id with
    | Some b => Ok (b, db)
    | None => Err ErrNoRows
    end.

(** [UPDATE wallets SET balance = f(balance) WHERE id = $2]: the row with
    that id is rewritten; when there is none, no row is affected and the
    statement still succeeds (the code ignores the [sql.Result]). *)
Definition update_balance (f : float64 -> float64) (id : string) : Tx unit :=
  fun db =>
    Ok (tt, {| wallets := alter f id (wallets db);
               transactions := transactions db |}).

(** [INSERT INTO transactions (from_wallet, to_wallet, amount)]. *)
Definition insert_transaction (r : Transaction) : Tx unit :=
  fun db =>
    Ok (tt, {| wallets := wallets db;
               transactions := transactions db ++ [r] |}).

(** [s.db.Begin()], the body, [tx.Commit()], with [defer tx.Rollback()]:
    the body's writes reach the store only when the body and the commit
    both succeed. *)
Definition atomically {A} (env : Env) (body : Tx A) (db : DB) : result A * DB :=
  if faulty env TxBegin then (Err ErrDriver, db)
  else
    match body db with
    | Err e => (Err e, db)
    | Ok (a, db') =>
        if faulty env TxCommit then (Err ErrDriver, db) else (Ok a, db')
    end.

(** ** The operations of [DBStore] *)

(** The balance every new wallet starts with: [balance := 100.0]. *)
Definition initial_balance : float64 := Eval vm_compute in of_Z 100.

(** [CreateWallet]; [id] is the string [uuid.New()] drew.  The INSERT
    fails when the key is taken. *)
Definition CreateWallet (env : Env) (id : string) (db : DB) : result Wallet * DB :=
  if faulty env CreateExec then (Err ErrDriver, db)
  else
    match wallets db !! id with
    | Some _ => (Err ErrDriver, db)
    | None =>
        (Ok {| ID := id; Balance := initial_balance |},
         {| wallets := <[id := initial_balance]> (wallets db);
            transactions := transactions db |})
    end.

(** [GetWallet] *)
Definition GetWallet (env : Env) (walletID : string) (db : DB) : result Wallet :=
  if faulty env WalletQueryRow then Err ErrDriver
  else
    match wallets db !! walletID with
    | Some b => Ok {| ID := walletID; Balance := b |}
    | None => Err ErrNoRows
    end.

(** The body of [Transfer] between [Begin] and [Commit]. *)
Definition transfer_body (env : Env) (fromID toID : string) (amount : float64) : Tx unit :=
  driver env TxSelect ;;
  fromBalance <~ select_balance fromID ;
  if ltb fromBalance amount then throw ErrInsufficientFunds
  else
    driver env TxDebit ;;
    update_balance (fun balance => sub balance amount) fromID ;;
    driver env TxCredit ;;
    update_balance (fun balance => add balance amount) toID ;;
    driver env TxInsert ;;
    insert_transaction
      {| Time := now env; From := fromID; To := toID; Amount := amount |}.

(** [Transfer] *)
Definition Transfer (env : Env) (fromID toID : string) (amount : float64)
    (db : DB) : result unit * DB :=
  atomically env (transfer_body env fromID toID amount) db.

(** The WHERE clause of [GetHistory]:
    [from_wallet = $1 OR to_wallet = $1]. *)
Definition touches (walletID : string) (t : Transaction) : bool :=
  String.eqb (From t) walletID || String.eqb (To t) walletID.

(** [GetHistory]: the matching rows, appended one by one to a slice that
    starts out nil. *)
Definition GetHistory (env : Env) (walletID : string) (db : DB) : result (list Transaction) :=
  if faulty env HistoryQuery then Err ErrDriver
  else Ok (List.filter (touches walletID) (transactions db)).

(** ** Sequences of operations *)

Inductive op : Type :=
  | OpCreateAccount (id : string)
  | OpGetBalance (id : string)
  | OpTransfer (fromID toID : string) (amount : float64)
  | OpGetHistory (id : string).

(** The store after one operation; the two queries leave it as it is. *)
Definition exec (env : Env) (o : op) (db : DB) : DB :=
  match o with
  | OpCreateAccount id => (CreateWallet env id db).2
  | OpGetBalance _ | OpGetHistory _ => db
  | OpTransfer fromID toID amount => (Transfer env fromID toID amount db).2
  end.

Fixpoint run (ops : list (Env * op)) (db : DB) : DB :=
  match ops with
  | [] => db
  | (env, o) :: rest => run rest (exec env o db)
  end.

(** The sum of all balances, in units of [2^-1074]. *)
Definition sum_units (m : gmap string float64) : Z :=
  map_fold (fun _ b acc => units b + acc) 0 m.

Definition total (db : DB) : Z := sum_units (wallets db).

(** Every operation of the sequence is a [Transfer] that succeeds. *)
Fixpoint successful_transfers (ops : list (Env * op)) (db : DB) : Prop :=
  match ops with
  | [] => True
  | (env, OpTransfer fromID toID amount) :: rest =>
      (Transfer env fromID toID amount db).1 = Ok tt /\
      successful_transfers rest (Transfer env fromID toID amount db).2
  | _ => False
  end.

(** The balance the credit UPDATE of a transfer finds in the recipient's
    row: the recipient's balance, already debited when the recipient is
    the sender. *)
Definition balance_at_credit (fromID toID : string) (amount fromBalance toBalance : float64) : float64 :=
  if decide (fromID = toID) then sub fromBalance amount else toBalance.

(** A transfer between existing wallets whose debit and credit are exact. *)
Definition exact_transfer (fromID toID : string) (amount : float64) (db : DB) : Prop :=
  exists fromBalance toBalance,
    wallets db !! fromID = Some fromBalance /\
    wallets db !! toID = Some toBalance /\
    exact_sub fromBalance amount /\
    exact_add (balance_at_credit fromID toID amount fromBalance toBalance) amount.

Fixpoint exact_transfers (ops : list (Env * op)) (db : DB) : Prop :=
  match ops with
  | [] => True
  | (env, OpTransfer fromID toID amount) :: rest =>
      exact_transfer fromID toID amount db /\
      exact_transfers rest (Transfer env fromID toID amount db).2
  | _ => False
  end.

(** No wallet of the store is in debt. *)
Definition solvent (db : DB) : Prop :=
  forall id b, wallets db !! id = Some b -> nonneg b.

(** Every transfer of the sequence moves an amount that is a finite
    float64 and not below zero. *)
Definition amounts_nonneg (ops : list (Env * op)) : Prop :=
  Forall (fun eo => match eo.2 with
                    | OpTransfer _ _ amount => nonneg amount /\ is_finite amount = true
                    | _ => True
                    end) ops.

(** The record [Transfer] inserts. *)
Definition record_of (env : Env) (fromID toID : string) (amount : float64) : Transaction :=
  {| Time := now env; From := fromID; To := toID; Amount := amount |}.

(** The store a committed [Transfer] leaves. *)
Definition committed (env : Env) (fromID toID : string) (amount : float64) (db : DB) : DB :=
  {| wallets :=
       alter (fun balance => add balance amount) toID
         (alter (fun balance => sub balance amount) fromID (wallets db));
     transactions := transactions db ++ [record_of env fromID toID amount] |}.

(** No driver call reports an error. *)
Definition responsive (env : Env) : Prop := forall c, faulty env c = false.

(** ** Concurrent transfers and row locks *)

(** Modelled from the spec: the lock manager belongs to the store, not to
    the repository.  As in the concurrency model of the specification, a
    wallet row is the unit of mutual exclusion: [SELECT ... FOR UPDATE]
    and [UPDATE] take the exclusive lock of every row they match, a
    statement whose row is locked by another transaction waits, and a
    transaction keeps its locks until it commits or rolls back.  The
    workers below run the statements of [Transfer] in the order of the
    source, one statement per step, on a store that answers every call. *)
Inductive stage : Type :=
  | AtSelect | AtDebit | AtCredit | AtInsert | AtCommit
  | Finished (r : result unit).

Record worker : Type :=
  { w_now : Z; w_from : string; w_to : string; w_amount : float64;
    w_stage : stage;
    w_acquired : list string }.   (* the rows it locked, oldest first *)

Record shared : Type :=
  { s_db : DB;
    s_locks : gmap string nat;    (* locked row -> index of the holder *)
    s_workers : list worker }.

(** A call [Transfer(fromID, toID, amount)] that has just begun. *)
Definition begun (t : Z) (fromID toID : string) (amount : float64) : worker :=
  {| w_now := t; w_from := fromID; w_to := toID; w_amount := amount;
     w_stage := AtSelect; w_acquired := [] |}.

Definition at_stage (st : stage) (w : worker) : worker :=
  {| w_now := w_now w; w_from := w_from w; w_to := w_to w; w_amount := w_amount w;
     w_stage := st; w_acquired := w_acquired w |}.

(** Worker [i] asks for the lock of row [id]: [None] when another worker
    holds it. *)
Definition lock_row (i : nat) (id : string) (w : worker) (locks : gmap string nat)
    : option (worker * gmap string nat) :=
  match locks !! id with
  | None =>
      Some ({| w_now := w_now w; w_from := w_from w; w_to := w_to w;
               w_amount := w_amount w; w_stage := w_stage w;
               w_acquired := w_acquired w ++ [id] |},
            <[id := i]> locks)
  | Some j => if decide (j = i) then Some (w, locks) else None
  end.

(** Commit or rollback: the locks of worker [i] are released. *)
Definition release (i : nat) (locks : gmap string nat) : gmap string nat :=
  filter (fun kv => kv.2 <> i) locks.

Definition put (i : nat) (w : worker) (db : DB) (locks : gmap string nat) (s : shared) : shared :=
  {| s_db := db; s_locks := locks; s_workers := <[i := w]> (s_workers s) |}.

(** [UPDATE wallets SET balance = f(balance) WHERE id = $2] by worker [i]:
    no row, no lock and no change; otherwise the row is locked first. *)
Definition update_row (i : nat) (id : string) (f : float64 -> float64) (next : stage)
    (w : worker) (s : shared) : option shared :=
  match wallets (s_db s) !! id with
  | None => Some (put i (at_stage next w) (s_db s) (s_locks s) s)
  | Some _ =>
      match lock_row i id w (s_locks s) with
      | None => None
      | Some (w', locks) =>
          Some (put i (at_stage next w')
                  {| wallets := alter f id (wallets (s_db s));
                     transactions := transactions (s_db s) |}
                  locks s)
      end
  end.

(** One statement of worker [i]; [None] when the worker has finished, does
    not exist, or has to wait for a lock. *)
Definition step (i : nat) (s : shared) : option shared :=
  match s_workers s !! i with
  | None => None
  | Some w =>
      match w_stage w with
      | Finished _ => None
      | AtSelect =>
          match wallets (s_db s) !! w_from w with
          | None =>
              Some (put i (at_stage (Finished (Err ErrNoRows)) w)
                      (s_db s) (release i (s_locks s)) s)
          | Some fromBalance =>
              match lock_row i (w_from w) w (s_locks s) with
              | None => None
              | Some (w', locks) =>
                  if ltb fromBalance (w_amount w)
                  then Some (put i (at_stage (Finished (Err ErrInsufficientFunds)) w')
                               (s_db s) (release i locks) s)
                  else Some (put i (at_stage AtDebit w') (s_db s) locks s)
              end
          end
      | AtDebit =>
          update_row i (w_from w) (fun balance => sub balance (w_amount w)) AtCredit w s
      | AtCredit =>
          update_row i (w_to w) (fun balance => add balance (w_amount w)) AtInsert w s
      | AtInsert =>
          Some (put i (at_stage AtCommit w)
                  {| wallets := wallets (s_db s);
                     transactions := transactions (s_db s) ++
                       [{| Time := w_now w; From := w_from w; To := w_to w;
                           Amount := w_amount w |}] |}
                  (s_locks s) s)
      | AtCommit =>
          Some (put i (at_stage (Finished (Ok tt)) w)
                  (s_db s) (release i (s_locks s)) s)
      end
  end.

(** The workers take steps in the order of a schedule. *)
Fixpoint steps (schedule : list nat) (s : shared) : option shared :=
  match schedule with
  | [] => Some s
  | i :: rest =>
      match step i s with
      | Some s' => steps rest s'
      | None => None
      end
  end.

Definition finished (w : worker) : bool :=
  match w_stage w with Finished _ => true | _ => false end.

(** Some worker has not finished and no worker can take a step. *)
Definition stuck (s : shared) : Prop :=
  (exists i w, s_workers s !! i = Some w /\ finished w = false) /\
  forall i, step i s = None.

(** Worker [i] waits for a row that worker [j] holds. *)
Definition waits_for (s : shared) (i j : nat) : Prop :=
  exists w id,
    s_workers s !! i = Some w /\
    i <> j /\
    s_locks s !! id = Some j /\
    (w_stage w = AtSelect /\ id = w_from w \/
     w_stage w = AtDebit /\ id = w_from w \/
     w_stage w = AtCredit /\ id = w_to w).

(** Transfers started together on a store. *)
Definition concurrently (ws : list worker) (db : DB) : shared :=
  {| s_db := db; s_locks := ∅; s_workers := ws |}.

(** ** Concrete stores used by the scenarios *)

(** Two wallets, created one after the other on an empty store. *)
Definition two_wallets : DB :=
  run [(healthy 0, OpCreateAccount "X"); (healthy 1, OpCreateAccount "Y")] empty_db.

(** The same two wallets after X has paid 50 to Y. *)
Definition after_fifty : DB :=
  run [(healthy 2, OpTransfer "X" "Y" (of_Z 50))] two_wallets.

(** X and Y after X has paid 30 to Y: 70 and 130, both exact. *)
Definition after_thirty : DB :=
  run [(healthy 2, OpTransfer "X" "Y" (of_Z 30))] two_wallets.

(** X after it has paid 30.2 to Y: it holds 69.8. *)
Definition after_thirty_point_two : DB :=
  run [(healthy 2, OpTransfer "X" "Y" (lit 302 1))] two_wallets.

(** ** The claims that fail, as the specification states them *)

(** The claim C2 as the specification states it, for one call. *)
Definition rejects_as_invalid (env : Env) (fromID toID : string) (amount : float64) (db : DB) : Prop :=
  leb amount zero = true ->
  fails_with (Transfer env fromID toID amount db).1 InvalidAmount /\
  (Transfer env fromID toID amount db).2 = db.

(** The claim C3 as stated, for one sequence of operations. *)
Definition never_in_debt (ops : list (Env * op)) (db : DB) : Prop :=
  forall id b, wallets (run ops db) !! id = Some b -> leb zero b = true.

(** The claim C4 as stated, for one sequence of operations. *)
Definition transfers_conserve (ops : list (Env * op)) (db : DB) : Prop :=
  successful_transfers ops db -> total (run ops db) = total db.

(** The claim C8 as stated, for one transfer between two distinct existing
    wallets: the new balances are the old ones minus and plus the amount,
    exactly. *)
Definition transfer_is_exact (env : Env) (fromID toID : string) (amount : float64) (db : DB) : Prop :=
  forall bf bt bf' bt',
    wallets db !! fromID = Some bf ->
    wallets db !! toID = Some bt ->
    wallets (Transfer env fromID toID amount db).2 !! fromID = Some bf' ->
    wallets (Transfer env fromID toID amount db).2 !! toID = Some bt' ->
    units bf' = units bf - units amount /\
    units bt' = units bt + units amount.

(** The two halves of claim C9.  First, the rows a transfer locks come in
    an order that does not depend on its direction: run alone on the same
    store, [Transfer(A, B, amount)] and [Transfer(B, A, amount)] acquire
    their locks in the same order. *)
Definition direction_blind_locking (t : Z) (A B : string) (amount : float64) (db : DB) : Prop :=
  forall sAB sBA wAB wBA,
    steps [0; 0; 0; 0; 0]%nat (concurrently [begun t A B amount] db) = Some sAB ->
    steps [0; 0; 0; 0; 0]%nat (concurrently [begun t B A amount] db) = Some sBA ->
    s_workers sAB = [wAB] ->
    s_workers sBA = [wBA] ->
    w_acquired wAB = w_acquired wBA.

(** Second, however the statements of the workers interleave, they never
    all wait while one of them is unfinished. *)
Definition never_stuck (s0 : shared) : Prop :=
  forall schedule s, steps schedule s0 = Some s -> ~ stuck s.

(** The claim C10 as stated, for one call. *)
Definition self_transfer_cancels (env : Env) (id : string) (amount : float64) (db : DB) : Prop :=
  forall b,
    wallets db !! id = Some b ->
    leb amount b = true ->
    (Transfer env id id amount db).1 = Ok tt /\
    wallets (Transfer env id id amount db).2 !! id = Some b /\
    transactions (Transfer env id id amount db).2 =
      transactions db ++ [{| Time := now env; From := id; To := id; Amount := amount |}].

(** ** The HTTP handlers *)

(** The value a handler passes to [responseJSON]; it is what
    [json.NewEncoder(w).Encode] is given, before any encoding. *)
Inductive payload : Type :=
  | ErrorText (msg : string)     (* map[string]string{"error": "<literal>"} *)
  | ErrorOf (e : error)          (* map[string]string{"error": err.Error()} *)
  | MessageText (msg : string)   (* map[string]string{"message": "<literal>"} *)
  | WalletData (w : Wallet)
  | HistoryData (h : list Transaction).

Record Response : Type :=
  { Status : Z; ContentType : string; Data : payload }.

Definition StatusOK : Z := 200.
Definition StatusBadRequest : Z := 400.
Definition StatusNotFound : Z := 404.
Definition StatusInternalServerError : Z := 500.

(** [responseJSON]: the content type is always JSON. *)
Definition responseJSON (status : Z) (data : payload) : Response :=
  {| Status := status; ContentType := "application/json"; Data := data |}.

(** [CreateWalletHandler]; [id] is the uuid the store draws. *)
Definition CreateWalletHandler (env : Env) (id : string) (db : DB) : Response * DB :=
  match CreateWallet env id db with
  | (Err _, db') =>
      (responseJSON StatusInternalServerError (ErrorText "failed to create wallet"), db')
  | (Ok wallet, db') => (responseJSON StatusOK (WalletData wallet), db')
  end.

(** [TransferHandler]; [walletId] is the path variable and [request] what
    [json.NewDecoder(r.Body).Decode(&request)] produced: [None] for a
    decoding error, otherwise the fields [To] and [Amount]. *)
Definition TransferHandler (env : Env) (walletId : string)
    (request : option (string * float64)) (db : DB) : Response * DB :=
  match request with
  | None => (responseJSON StatusBadRequest (ErrorText "invalid request"), db)
  | Some (to, amount) =>
      match Transfer env walletId to amount db with
      | (Err e, db') => (responseJSON StatusBadRequest (ErrorOf e), db')
      | (Ok _, db') =>
          (responseJSON StatusOK (MessageText "transfer successful"), db')
      end
  end.

(** [GetHistoryHandler] *)
Definition GetHistoryHandler (env : Env) (walletId : string) (db : DB) : Response :=
  match GetHistory env walletId db with
  | Err e => responseJSON StatusNotFound (ErrorOf e)
  | Ok history => responseJSON StatusOK (HistoryData history)
  end.

(** [GetWalletHandler] *)
Definition GetWalletHandler (env : Env) (walletId : string) (db : DB) : Response :=
  match GetWallet env walletId db with
  | Err e => responseJSON StatusNotFound (ErrorOf e)
  | Ok wallet => responseJSON StatusOK (WalletData wallet)
  end.

(** ** Invariants of the log *)

(** Every record of the log names a sender that has a wallet. *)
Definition senders_exist (db : DB) : Prop :=
  Forall (fun r => is_Some (wallets db !! From r)) (transactions db).

(** The ids of the wallets a sequence of operations asks to create. *)
Fixpoint created_ids (ops : list (Env * op)) : gset string :=
  match ops with
  | [] => ∅
  | (_, OpCreateAccount id) :: rest => {[ id ]} ∪ created_ids rest
  | _ :: rest => created_ids rest
  end.

(** * Properties *)

(** ** Float64 arithmetic: rounding keeps the sign *)

Lemma digits2_pos_bounds (p : positive) :
  2 ^ (Z.pos (digits2_pos p) - 1) <= Z.pos p < 2 ^ Z.pos (digits2_pos p).
Proof.
  induction p as [p IH|p IH|]; cbn [digits2_pos].
  - rewrite Pos2Z.inj_succ.
    replace (Z.succ (Z.pos (digits2_pos p)) - 1) with (Z.succ (Z.pos (digits2_pos p) - 1)) by lia.
    rewrite !Z.pow_succ_r by lia. lia.
  - rewrite Pos2Z.inj_succ.
    replace (Z.succ (Z.pos (digits2_pos p)) - 1) with (Z.succ (Z.pos (digits2_pos p) - 1)) by lia.
    rewrite !Z.pow_succ_r by lia. lia.
  - cbn. lia.
Qed.

Lemma digits2_unique (p : positive) (k : Z) :
  2 ^ (k - 1) <= Z.pos p < 2 ^ k -> Z.pos (digits2_pos p) = k.
Proof.
  intros [Hlo Hhi].
  destruct (digits2_pos_bounds p) as [Hlo' Hhi'].
  assert (Hk : 0 < k).
  { destruct (Z_lt_le_dec 0 k) as [|Hk]; [assumption|].
    exfalso. destruct (Z.eq_dec k 0) as [->|]; [cbn in Hhi; lia|].
    rewrite Z.pow_neg_r in Hhi by lia. lia. }
  destruct (Z_lt_le_dec (Z.pos (digits2_pos p)) k) as [Hlt|Hge].
  - assert (2 ^ Z.pos (digits2_pos p) <= 2 ^ (k - 1)) by (apply Z.pow_le_mono_r; lia). lia.
  - destruct (Z_lt_le_dec k (Z.pos (digits2_pos p))) as [Hlt|Hle]; [|lia].
    assert (2 ^ k <= 2 ^ (Z.pos (digits2_pos p) - 1)) by (apply Z.pow_le_mono_r; lia). lia.
Qed.

Lemma shr_1_m (mrs : shr_record) :
  0 <= shr_m mrs -> shr_m (shr_1 mrs) = shr_m mrs / 2.
Proof.
  destruct mrs as [m r s]. cbn [shr_m].
  destruct m as [|[p|p|]|p]; intros H; try lia; cbn [shr_1 shr_m];
    rewrite <- Z.div2_div; reflexivity.
Qed.

Lemma iter_shr_1_m (n : positive) (mrs : shr_record) :
  0 <= shr_m mrs ->
  shr_m (SpecFloat.iter_pos shr_1 n mrs) = shr_m mrs / 2 ^ Z.pos n.
Proof.
  revert mrs. induction n as [n IH|n IH|]; intros mrs Hm; cbn [SpecFloat.iter_pos].
  - assert (H1 : 0 <= shr_m (shr_1 mrs)).
    { rewrite shr_1_m by exact Hm. apply Z.div_pos; lia. }
    assert (H2 : 0 <= shr_m (SpecFloat.iter_pos shr_1 n (shr_1 mrs))).
    { rewrite IH by exact H1. apply Z.div_pos; [exact H1|]. apply Z.pow_pos_nonneg; lia. }
    rewrite IH by exact H2. rewrite IH by exact H1. rewrite shr_1_m by exact Hm.
    assert (Hp : 0 < 2 ^ Z.pos n) by (apply Z.pow_pos_nonneg; lia).
    rewrite !Z.div_div by lia.
    f_equal. rewrite <- !Z.pow_add_r by lia.
    change 2 with (2 ^ 1) at 1. rewrite <- Z.pow_add_r by lia. f_equal. lia.
  - assert (H2 : 0 <= shr_m (SpecFloat.iter_pos shr_1 n mrs)).
    { rewrite IH by exact Hm. apply Z.div_pos; [exact Hm|]. apply Z.pow_pos_nonneg; lia. }
    rewrite IH by exact H2. rewrite IH by exact Hm.
    assert (Hp : 0 < 2 ^ Z.pos n) by (apply Z.pow_pos_nonneg; lia).
    rewrite !Z.div_div by lia.
    f_equal. rewrite <- Z.pow_add_r by lia. f_equal. lia.
  - rewrite shr_1_m by exact Hm. reflexivity.
Qed.

Lemma shr_record_of_loc_m (m : Z) (l : location) :
  shr_m (shr_record_of_loc m l) = m.
Proof. destruct l as [|[| |]]; reflexivity. Qed.

(** shr_fexp divides by the power of two that brings the exponent up to fexp. *)
Lemma shr_fexp_spec (m e : Z) (l : location) :
  0 <= m ->
  let n := Z.max 0 (fexp prec emax (Zdigits2 m + e) - e) in
  shr_m (fst (shr_fexp prec emax m e l)) = m / 2 ^ n /\
  snd (shr_fexp prec emax m e l) = e + n.
Proof.
  intros Hm n. unfold shr_fexp, shr. subst n.
  destruct (fexp prec emax (Zdigits2 m + e) - e) as [|p|p]; cbn [fst snd].
  - rewrite shr_record_of_loc_m. cbn. rewrite Z.div_1_r. lia.
  - rewrite iter_shr_1_m by (rewrite shr_record_of_loc_m; exact Hm).
    rewrite shr_record_of_loc_m.
    replace (Z.max 0 (Z.pos p)) with (Z.pos p) by lia. lia.
  - rewrite shr_record_of_loc_m.
    replace (Z.max 0 (Z.neg p)) with 0 by lia. cbn. rewrite Z.div_1_r. lia.
Qed.

Lemma iter_xO (m d : positive) :
  Z.pos (Pos.iter xO m d) = Z.pos m * 2 ^ Z.pos d.
Proof.
  induction d as [|d IH] using Pos.peano_ind.
  - cbn. lia.
  - rewrite Pos.iter_succ, Pos2Z.inj_xO, IH, Pos2Z.inj_succ, Z.pow_succ_r by lia. lia.
Qed.

Lemma shl_align_spec (m : positive) (e e' : Z) :
  snd (shl_align m e e') = Z.min e e' /\
  Z.pos (fst (shl_align m e e')) = Z.pos m * 2 ^ (e - Z.min e e').
Proof.
  unfold shl_align.
  destruct (e' - e) as [|p|p] eqn:He; cbn [fst snd].
  - replace (Z.min e e') with e by lia. rewrite Z.sub_diag. cbn. lia.
  - replace (Z.min e e') with e by lia. rewrite Z.sub_diag. cbn. lia.
  - replace (Z.min e e') with e' by lia. rewrite iter_xO.
    replace (e - e') with (Z.pos p) by lia. lia.
Qed.

Lemma round_nearest_even_cases (m : Z) (l : location) :
  round_nearest_even m l = m \/ round_nearest_even m l = m + 1.
Proof.
  destruct l as [|[| |]]; cbn; auto. destruct (Z.even m); auto.
Qed.

Lemma Zdigits2_unique (m k : Z) :
  0 < m -> 2 ^ (k - 1) <= m < 2 ^ k -> Zdigits2 m = k.
Proof.
  destruct m as [|p|p]; intros Hm Hb; try lia.
  cbn [Zdigits2]. apply digits2_unique. exact Hb.
Qed.

Lemma div_pow2_bounds (m D n : Z) :
  0 <= n < D ->
  2 ^ (D - 1) <= m < 2 ^ D ->
  2 ^ (D - 1 - n) <= m / 2 ^ n < 2 ^ (D - n).
Proof.
  intros Hn [Hlo Hhi].
  assert (Hp : 0 < 2 ^ n) by (apply Z.pow_pos_nonneg; lia).
  split.
  - apply Z.div_le_lower_bound; [exact Hp|].
    rewrite <- Z.pow_add_r by lia.
    replace (n + (D - 1 - n)) with (D - 1) by lia. exact Hlo.
  - apply Z.div_lt_upper_bound; [exact Hp|].
    rewrite <- Z.pow_add_r by lia.
    replace (n + (D - n)) with D by lia. exact Hhi.
Qed.

Lemma div_pow2_zero (m D n : Z) :
  0 <= D <= n -> 0 <= m < 2 ^ D -> m / 2 ^ n = 0.
Proof.
  intros Hn [Hlo Hhi]. apply Z.div_small. split; [exact Hlo|].
  assert (2 ^ D <= 2 ^ n) by (apply Z.pow_le_mono_r; lia). lia.
Qed.

Ltac fexp64 := unfold fexp, emin, prec, emax in *.

(** The arithmetic of rounding to binary64: after the mantissa has been
    shifted to the exponent [fexp] asks for and rounded up by at most
    one, a second shift makes the result canonical again. *)
Lemma round_core (mz : positive) (ez m2 : Z) :
  let D := Z.pos (digits2_pos mz) in
  let f := fexp prec emax (D + ez) in
  ez <= f ->
  let m1 := Z.pos mz / 2 ^ (f - ez) in
  m2 = m1 \/ m2 = m1 + 1 ->
  let n2 := Z.max 0 (fexp prec emax (Zdigits2 m2 + f) - f) in
  0 <= m2 / 2 ^ n2 /\
  forall p, m2 / 2 ^ n2 = Z.pos p ->
            fexp prec emax (Z.pos (digits2_pos p) + (f + n2)) = f + n2.
Proof.
  intros D f Hef m1 Hm2 n2.
  pose proof (digits2_pos_bounds mz) as Hmz. fold D in Hmz.
  assert (HD : 1 <= D) by (unfold D; lia).
  assert (Hf : f = Z.max (D + ez - 53) (-1074)) by (unfold f; fexp64; lia).
  destruct (Z_lt_le_dec (f - ez) D) as [Hlt|Hge].
  - (* the first shift keeps at least one digit *)
    pose proof (div_pow2_bounds (Z.pos mz) D (f - ez) ltac:(lia) Hmz) as Hm1.
    fold m1 in Hm1.
    set (D1 := D - (f - ez)) in *.
    replace (D - 1 - (f - ez)) with (D1 - 1) in Hm1 by (unfold D1; lia).
    assert (HD1 : 1 <= D1) by (unfold D1; lia).
    assert (Hpos1 : 0 < m1).
    { assert (0 < 2 ^ (D1 - 1)) by (apply Z.pow_pos_nonneg; lia). lia. }
    assert (Hsame : forall m, 0 < m -> 2 ^ (D1 - 1) <= m < 2 ^ D1 ->
              m2 = m ->
              0 <= m2 / 2 ^ n2 /\
              forall p, m2 / 2 ^ n2 = Z.pos p ->
                        fexp prec emax (Z.pos (digits2_pos p) + (f + n2)) = f + n2).
    { intros m Hm Hb ->.
      assert (Hd : Zdigits2 m = D1) by (apply Zdigits2_unique; assumption).
      assert (Hn2 : n2 = 0) by (unfold n2; rewrite Hd; fexp64; unfold D1; lia).
      rewrite Hn2. cbn [Z.pow]. rewrite Z.div_1_r. split; [lia|].
      intros p Hp. rewrite Hp in Hd. cbn [Zdigits2] in Hd. rewrite Hd.
      fexp64. unfold D1. lia. }
    destruct Hm2 as [Hm2|Hm2]; [exact (Hsame m1 Hpos1 Hm1 Hm2)|].
    destruct (Z_lt_le_dec (m1 + 1) (2 ^ D1)) as [Hin|Hout].
    + apply (Hsame (m1 + 1)); [lia|lia|exact Hm2].
    + (* the rounded mantissa is a power of two: one more digit *)
      assert (Hpow : m2 = 2 ^ D1) by lia.
      assert (Hd : Zdigits2 m2 = D1 + 1).
      { apply Zdigits2_unique; [lia|].
        replace (D1 + 1 - 1) with D1 by lia.
        rewrite Z.pow_add_r by lia. cbn [Z.pow Z.pow_pos Pos.iter]. lia. }
      destruct (Z.eq_dec D1 53) as [H53|Hsub].
      * assert (Hn2 : n2 = 1) by (unfold n2; rewrite Hd; fexp64; unfold D1 in *; lia).
        rewrite Hn2, Hpow, H53.
        change (2 ^ 53 / 2 ^ 1) with (2 ^ 52). split; [cbn; lia|].
        intros p Hp.
        assert (Hdp : Zdigits2 (Z.pos p) = 53).
        { rewrite <- Hp. reflexivity. }
        cbn [Zdigits2] in Hdp. rewrite Hdp. fexp64. unfold D1 in *. lia.
      * assert (Hn2 : n2 = 0) by (unfold n2; rewrite Hd; fexp64; unfold D1 in *; lia).
        rewrite Hn2. cbn [Z.pow]. rewrite Z.div_1_r. split; [lia|].
        intros p Hp. rewrite Hp in Hd. cbn [Zdigits2] in Hd. rewrite Hd.
        fexp64. unfold D1 in *. lia.
  - (* every digit is shifted out: the exponent is the smallest one *)
    assert (Hz : m1 = 0).
    { unfold m1. apply (div_pow2_zero _ D); lia. }
    assert (Hmin : f = -1074) by lia.
    destruct Hm2 as [Hm2|Hm2]; rewrite Hz in Hm2; rewrite ?Z.add_0_l in Hm2.
    + assert (Hn2 : n2 = 0) by (unfold n2; rewrite Hm2; cbn [Zdigits2]; fexp64; lia).
      rewrite Hn2, Hm2. cbn [Z.pow]. rewrite Z.div_1_r. split; [lia|].
      intros p Hp. discriminate Hp.
    + assert (Hn2 : n2 = 0) by (unfold n2; rewrite Hm2; cbn [Zdigits2 digits2_pos]; fexp64; lia).
      rewrite Hn2, Hm2. cbn [Z.pow]. rewrite Z.div_1_r. split; [lia|].
      intros p Hp. injection Hp as <-. cbn [digits2_pos]. fexp64. lia.
Qed.

Lemma binary_round_aux_signed (s : bool) (mz : positive) (ez : Z) (l : location) :
  ez <= fexp prec emax (Z.pos (digits2_pos mz) + ez) ->
  signed s (binary_round_aux prec emax s (Z.pos mz) ez l).
Proof.
  intros Hef. unfold binary_round_aux.
  pose proof (shr_fexp_spec (Z.pos mz) ez l ltac:(lia)) as [H1m H1e].
  destruct (shr_fexp prec emax (Z.pos mz) ez l) as [mrs1 e1].
  cbn [fst snd Zdigits2] in H1m, H1e.
  set (f := fexp prec emax (Z.pos (digits2_pos mz) + ez)) in *.
  replace (Z.max 0 (f - ez)) with (f - ez) in H1m, H1e by lia.
  assert (He1 : e1 = f) by lia. clear H1e. subst e1.
  set (m2 := round_nearest_even (shr_m mrs1) (loc_of_shr_record mrs1)).
  assert (Hm2 : m2 = Z.pos mz / 2 ^ (f - ez) \/ m2 = Z.pos mz / 2 ^ (f - ez) + 1).
  { rewrite <- H1m. apply round_nearest_even_cases. }
  destruct (round_core mz ez m2 Hef Hm2) as [Hnn Hcan].
  assert (H0 : 0 <= m2).
  { assert (0 <= Z.pos mz / 2 ^ (f - ez)).
    { apply Z.div_pos; [lia|]. apply Z.pow_pos_nonneg; lia. }
    lia. }
  pose proof (shr_fexp_spec m2 f loc_Exact H0) as [H2m H2e].
  destruct (shr_fexp prec emax m2 f loc_Exact) as [mrs2 e2].
  cbn [fst snd] in H2m, H2e. fold f in Hnn, Hcan.
  rewrite <- H2m in Hnn, Hcan. rewrite <- H2e in Hcan.
  destruct (shr_m mrs2) as [|p|p].
  - split; [reflexivity|]. left; reflexivity.
  - destruct (Z.leb e2 (emax - prec)) eqn:Hle.
    + split; [|right; right; eauto].
      cbn [valid_binary]. unfold bounded, canonical_mantissa.
      rewrite (Hcan p eq_refl), Z.eqb_refl, Hle. reflexivity.
    + split; [reflexivity|]. right; left; reflexivity.
  - lia.
Qed.

Lemma binary_round_signed (s : bool) (m : positive) (e : Z) :
  signed s (binary_round prec emax s m e).
Proof.
  unfold binary_round.
  set (f0 := fexp prec emax (Z.pos (digits2_pos m) + e)).
  pose proof (shl_align_spec m e f0) as [He Hm].
  destruct (shl_align m e f0) as [mz ez]. cbn [fst snd] in He, Hm.
  rewrite <- He in Hm.
  apply binary_round_aux_signed.
  assert (Hd : Z.pos (digits2_pos mz) = Z.pos (digits2_pos m) + (e - ez)).
  { apply digits2_unique. rewrite Hm.
    pose proof (digits2_pos_bounds m) as [Hlo Hhi].
    assert (Hp : 0 < 2 ^ (e - ez)) by (apply Z.pow_pos_nonneg; lia).
    replace (Z.pos (digits2_pos m) + (e - ez) - 1)
      with (Z.pos (digits2_pos m) - 1 + (e - ez)) by lia.
    rewrite !Z.pow_add_r by lia. nia. }
  rewrite Hd. replace (Z.pos (digits2_pos m) + (e - ez) + ez)
    with (Z.pos (digits2_pos m) + e) by lia.
  fold f0. lia.
Qed.

Lemma binary_normalize_signed (z e : Z) :
  0 <= z -> signed false (binary_normalize prec emax z e false).
Proof.
  destruct z as [|p|p]; intros Hz; cbn [binary_normalize].
  - split; [reflexivity|]. left; reflexivity.
  - apply binary_round_signed.
  - lia.
Qed.

Lemma signed_nonneg (r : float64) : signed false r -> nonneg r.
Proof.
  intros [Hv [->|[->|(m & e & ->)]]]; split; auto.
Qed.

(** Among canonical positive floats the one with the larger exponent is
    the larger number, so the mantissas brought to the smaller exponent
    compare like the floats. *)
Lemma aligned_difference (mx my : positive) (ex ey : Z) :
  bounded prec emax mx ex = true ->
  bounded prec emax my ey = true ->
  ltb (S754_finite false mx ex) (S754_finite false my ey) = false ->
  0 <= Z.pos (fst (shl_align mx ex (Z.min ex ey)))
       - Z.pos (fst (shl_align my ey (Z.min ex ey))).
Proof.
  unfold bounded, canonical_mantissa, ltb, SFltb, SFcompare.
  intros Hx Hy Hlt.
  apply andb_prop in Hx as [Hx _]. apply andb_prop in Hy as [Hy _].
  apply Z.eqb_eq in Hx, Hy.
  destruct (shl_align_spec mx ex (Z.min ex ey)) as [_ ->].
  destruct (shl_align_spec my ey (Z.min ex ey)) as [_ ->].
  replace (Z.min ex (Z.min ex ey)) with (Z.min ex ey) by lia.
  replace (Z.min ey (Z.min ex ey)) with (Z.min ex ey) by lia.
  pose proof (digits2_pos_bounds mx) as [Hxl Hxh].
  pose proof (digits2_pos_bounds my) as [Hyl Hyh].
  destruct (Z.compare_spec ex ey) as [Heq|Hl|Hg]; [| discriminate |].
  - subst ey. rewrite Z.min_id, Z.sub_diag. cbn [Z.pow].
    change (Pos.compare_cont Eq mx my) with (Pos.compare mx my) in Hlt.
    destruct (Pos.compare_spec mx my); try discriminate; lia.
  - replace (Z.min ex ey) with ey by lia.
    rewrite Z.sub_diag. cbn [Z.pow].
    assert (Hdx : Z.pos (digits2_pos mx) = 53) by (fexp64; lia).
    assert (Hdy : Z.pos (digits2_pos my) <= 53) by (fexp64; lia).
    rewrite Hdx in Hxl.
    assert (Hy53 : Z.pos my < 2 ^ 53).
    { assert (2 ^ Z.pos (digits2_pos my) <= 2 ^ 53) by (apply Z.pow_le_mono_r; lia). lia. }
    assert (H2 : 2 ^ 1 <= 2 ^ (ex - ey)) by (apply Z.pow_le_mono_r; lia).
    change (2 ^ (53 - 1)) with 4503599627370496 in Hxl.
    change (2 ^ 53) with 9007199254740992 in Hy53.
    change (2 ^ 1) with 2 in H2. nia.
Qed.

Lemma add_nonneg (x y : float64) :
  nonneg x -> nonneg y -> nonneg (add x y).
Proof.
  intros [Hvx Hx] [Hvy Hy].
  destruct x as [sx|[|]| |[|] mx ex]; try discriminate Hx;
    destruct y as [sy|[|]| |[|] my ey]; try discriminate Hy;
    try (split; [exact Hvx | exact Hx]);
    try (split; [exact Hvy | exact Hy]).
  - destruct sx, sy; split; reflexivity.
  - apply signed_nonneg. unfold add, SFadd. cbn [cond_Zopp].
    apply binary_normalize_signed. lia.
Qed.

Lemma sub_nonneg (x y : float64) :
  nonneg x -> nonneg y -> is_finite y = true -> ltb x y = false ->
  nonneg (sub x y).
Proof.
  intros [Hvx Hx] [Hvy Hy] Hfin Hlt.
  destruct x as [sx|[|]| |[|] mx ex]; try discriminate Hx;
    destruct y as [sy|[|]| |[|] my ey]; try discriminate Hy;
    try discriminate Hfin; try discriminate Hlt;
    try (split; [exact Hvx | exact Hx]).
  - destruct sx, sy; split; reflexivity.
  - apply signed_nonneg. unfold sub, SFsub. cbn [cond_Zopp].
    apply binary_normalize_signed.
    apply aligned_difference; assumption.
Qed.

(** ** The shape of [Transfer] *)

Lemma healthy_responsive (t : Z) : responsive (healthy t).
Proof. intros c. reflexivity. Qed.

(** With a responsive store [Transfer] has three outcomes. *)
Lemma Transfer_responsive (env : Env) (fromID toID : string) (amount : float64) (db : DB) :
  responsive env ->
  Transfer env fromID toID amount db =
    match wallets db !! fromID with
    | None => (Err ErrNoRows, db)
    | Some fromBalance =>
        if ltb fromBalance amount then (Err ErrInsufficientFunds, db)
        else (Ok tt, committed env fromID toID amount db)
    end.
Proof.
  intros Hr.
  unfold Transfer, atomically, transfer_body, bind, driver, select_balance.
  rewrite !Hr.
  destruct (wallets db !! fromID) as [b|]; [|reflexivity].
  destruct (ltb b amount); [reflexivity|].
  unfold update_balance, insert_transaction; simpl.
  rewrite ?Hr. reflexivity.
Qed.

(** Whatever the store does, a successful [Transfer] has read a sender
    balance that is not below the amount and has committed all three
    writes. *)
Lemma Transfer_ok_inv (env : Env) (fromID toID : string) (amount : float64) (db db' : DB) :
  Transfer env fromID toID amount db = (Ok tt, db') ->
  exists fromBalance,
    wallets db !! fromID = Some fromBalance /\
    ltb fromBalance amount = false /\
    db' = committed env fromID toID amount db.
Proof.
  unfold Transfer, atomically, transfer_body, bind, driver, select_balance,
    update_balance, insert_transaction, throw.
  destruct (faulty env TxBegin); [discriminate|].
  destruct (faulty env TxSelect); [discriminate|].
  destruct (wallets db !! fromID) as [b|]; [|discriminate].
  destruct (ltb b amount) eqn:Hlt; [discriminate|].
  destruct (faulty env TxDebit); [discriminate|].
  destruct (faulty env TxCredit); [discriminate|].
  destruct (faulty env TxInsert); [discriminate|].
  destruct (faulty env TxCommit); [discriminate|].
  intros H; injection H as <-.
  exists b. auto.
Qed.

(** Every failure of [Transfer] leaves the store as it was, and has one
    of three causes. *)
Lemma Transfer_err_inv (env : Env) (fromID toID : string) (amount : float64) (db db' : DB) (e : error) :
  Transfer env fromID toID amount db = (Err e, db') ->
  db' = db /\
  (e = ErrNoRows /\ wallets db !! fromID = None \/
   e = ErrInsufficientFunds /\
     (exists fromBalance, wallets db !! fromID = Some fromBalance /\ ltb fromBalance amount = true) \/
   e = ErrDriver /\ exists c, faulty env c = true).
Proof.
  assert (Hd : forall c, faulty env c = true ->
             (Err ErrDriver : result unit, db) = (Err e, db') ->
             db' = db /\
             (e = ErrNoRows /\ wallets db !! fromID = None \/
              e = ErrInsufficientFunds /\
                (exists fromBalance, wallets db !! fromID = Some fromBalance /\
                                     ltb fromBalance amount = true) \/
              e = ErrDriver /\ exists c, faulty env c = true)).
  { intros c Hc H. injection H as <- <-. split; [reflexivity|].
    right; right. split; [reflexivity|]. exists c. exact Hc. }
  unfold Transfer, atomically, transfer_body, bind, driver, select_balance,
    update_balance, insert_transaction, throw.
  destruct (faulty env TxBegin) eqn:H0; [exact (Hd _ H0)|].
  destruct (faulty env TxSelect) eqn:H1; [exact (Hd _ H1)|].
  destruct (wallets db !! fromID) as [b|].
  2:{ intros H; injection H as <- <-. auto. }
  destruct (ltb b amount) eqn:Hlt.
  { intros H; injection H as <- <-. split; [reflexivity|].
    right; left. split; [reflexivity|]. exists b. auto. }
  destruct (faulty env TxDebit) eqn:H2; [exact (Hd _ H2)|].
  destruct (faulty env TxCredit) eqn:H3; [exact (Hd _ H3)|].
  destruct (faulty env TxInsert) eqn:H4; [exact (Hd _ H4)|].
  destruct (faulty env TxCommit) eqn:H5; [exact (Hd _ H5)|].
  discriminate.
Qed.

(** The balances a committed [Transfer] leaves: the sender's is debited,
    the recipient's credited, a wallet that is both is debited and then
    credited, and any other is untouched. *)
Lemma committed_lookup_from (env : Env) (fromID toID : string) (amount b : float64) (db : DB) :
  fromID <> toID ->
  wallets db !! fromID = Some b ->
  wallets (committed env fromID toID amount db) !! fromID = Some (sub b amount).
Proof.
  intros Hne Hb. unfold committed; simpl.
  rewrite lookup_alter_ne by congruence.
  rewrite lookup_alter_eq, Hb. reflexivity.
Qed.

Lemma committed_lookup_to (env : Env) (fromID toID : string) (amount b : float64) (db : DB) :
  fromID <> toID ->
  wallets db !! toID = Some b ->
  wallets (committed env fromID toID amount db) !! toID = Some (add b amount).
Proof.
  intros Hne Hb. unfold committed; simpl.
  rewrite lookup_alter_eq.
  rewrite lookup_alter_ne by congruence.
  rewrite Hb. reflexivity.
Qed.

Lemma committed_lookup_self (env : Env) (id : string) (amount b : float64) (db : DB) :
  wallets db !! id = Some b ->
  wallets (committed env id id amount db) !! id = Some (add (sub b amount) amount).
Proof.
  intros Hb. unfold committed; simpl.
  rewrite !lookup_alter_eq, Hb. reflexivity.
Qed.

Lemma committed_lookup_other (env : Env) (fromID toID i : string) (amount : float64) (db : DB) :
  i <> fromID -> i <> toID ->
  wallets (committed env fromID toID amount db) !! i = wallets db !! i.
Proof.
  intros H1 H2. unfold committed; simpl.
  rewrite !lookup_alter_ne by congruence. reflexivity.
Qed.

(** ** Transfers to a recipient that does not exist *)

(** With a sender that can pay and a recipient that has no row, the credit
    UPDATE affects no row and the transfer commits all the same. *)
Lemma Transfer_missing_recipient (env : Env) (fromID toID : string) (amount fromBalance : float64) (db : DB) :
  responsive env ->
  wallets db !! toID = None ->
  wallets db !! fromID = Some fromBalance ->
  ltb fromBalance amount = false ->
  Transfer env fromID toID amount db =
    (Ok tt, {| wallets := <[fromID := sub fromBalance amount]> (wallets db);
               transactions := transactions db ++ [record_of env fromID toID amount] |}).
Proof.
  intros Hr Hto Hfrom Hlt.
  rewrite Transfer_responsive by exact Hr.
  rewrite Hfrom, Hlt. unfold committed. do 2 f_equal.
  apply map_eq. intros i.
  destruct (decide (i = toID)) as [->|Hne].
  - rewrite lookup_alter_eq.
    destruct (decide (fromID = toID)) as [->|Hft]; [congruence|].
    rewrite lookup_alter_ne, lookup_insert_ne, Hto by exact Hft. reflexivity.
  - rewrite lookup_alter_ne by congruence.
    destruct (decide (i = fromID)) as [->|Hnf].
    + rewrite lookup_alter_eq, lookup_insert_eq, Hfrom. reflexivity.
    + rewrite lookup_alter_ne, lookup_insert_ne by congruence. reflexivity.
Qed.

(** C1: a transfer whose recipient does not exist should fail with
    NotFound and change nothing.  The code does not: on the two fresh
    wallets, [Transfer(X, "nonexistent", 10)] succeeds, takes 10 from X
    (100 becomes 90), credits nobody and logs the transfer. *)
Theorem C1_missing_recipient_commits :
  let db := two_wallets in
  let out := Transfer (healthy 2) "X" "nonexistent" (of_Z 10) db in
  wallets db !! "nonexistent" = None /\
  wallets db !! "X" = Some (of_Z 100) /\
  out.1 = Ok tt /\
  wallets out.2 !! "X" = Some (of_Z 90) /\
  wallets out.2 !! "Y" = Some (of_Z 100) /\
  wallets out.2 !! "nonexistent" = None /\
  transactions out.2 = [record_of (healthy 2) "X" "nonexistent" (of_Z 10)] /\
  total out.2 = total db - units (of_Z 10).
Proof. vm_compute. repeat split. Qed.

(** ** Amounts that are not positive *)

(** No Go error of the store stands for InvalidAmount. *)
Lemma never_InvalidAmount {A} (r : result A) : ~ fails_with r InvalidAmount.
Proof. intros [e [_ He]]. destruct e; discriminate. Qed.

(** C2, counterexample: [Transfer(X, Y, -10)] on the two fresh wallets is
    not rejected: it succeeds, X holds 110 and Y holds 90 afterwards, and
    the log has the record. *)
Lemma C2_counterexample :
  let out := Transfer (healthy 2) "X" "Y" (of_Z (-10)) two_wallets in
  ~ rejects_as_invalid (healthy 2) "X" "Y" (of_Z (-10)) two_wallets /\
  leb (of_Z (-10)) zero = true /\
  out.1 = Ok tt /\
  wallets out.2 !! "X" = Some (of_Z 110) /\
  wallets out.2 !! "Y" = Some (of_Z 90) /\
  transactions out.2 = [record_of (healthy 2) "X" "Y" (of_Z (-10))].
Proof.
  split.
  - intros H. destruct (H eq_refl) as [Hf _].
    exact (never_InvalidAmount _ Hf).
  - vm_compute. repeat split.
Qed.

(** An amount that is not above zero is never above a balance that is not
    below zero: the guard [fromBalance < amount] lets it through. *)
Lemma nonpositive_passes_guard (amount balance : float64) :
  leb amount zero = true -> leb zero balance = true -> ltb balance amount = false.
Proof.
  destruct amount as [sa|[|]| |[|] ma ea]; try discriminate;
    destruct balance as [sb|[|]| |[|] mb eb]; try discriminate; reflexivity.
Qed.

(** C2, amended: [Transfer] does not look at the sign of the amount and
    never fails with InvalidAmount.  A call with [amount <= 0] fails only
    with NotFound (no sender row), InsufficientFunds (sender balance below
    the amount) or StoreError (a driver fault), and every such failure
    leaves the balances and the log unchanged; when the sender exists with
    a balance that is not below zero and the store answers, the call
    passes the guard and commits like any other transfer. *)
Theorem C2_no_amount_validation (env : Env) (fromID toID : string) (amount : float64) (db : DB) :
  leb amount zero = true ->
  ~ fails_with (Transfer env fromID toID amount db).1 InvalidAmount /\
  (forall e, (Transfer env fromID toID amount db).1 = Err e ->
     (Transfer env fromID toID amount db).2 = db /\
     (kind_of e = NotFound /\ wallets db !! fromID = None \/
      kind_of e = InsufficientFunds /\
        (exists fromBalance, wallets db !! fromID = Some fromBalance /\
                             ltb fromBalance amount = true) \/
      kind_of e = StoreError /\ exists c, faulty env c = true)) /\
  (forall fromBalance,
     responsive env ->
     wallets db !! fromID = Some fromBalance ->
     leb zero fromBalance = true ->
     Transfer env fromID toID amount db = (Ok tt, committed env fromID toID amount db)).
Proof.
  intros Hle. split; [apply never_InvalidAmount|]. split.
  - intros e He.
    destruct (Transfer env fromID toID amount db) as [r db'] eqn:HT.
    simpl in He |- *. subst r.
    destruct (Transfer_err_inv _ _ _ _ _ _ _ HT) as [-> Hcause].
    split; [reflexivity|].
    destruct Hcause as [[-> Hn]|[[-> Hb]|[-> Hc]]]; simpl; auto.
  - intros fromBalance Hr Hb Hpos.
    rewrite Transfer_responsive by exact Hr.
    rewrite Hb, (nonpositive_passes_guard _ _ Hle Hpos). reflexivity.
Qed.

Lemma C2_no_amount_validation_witness :
  leb (of_Z (-5)) zero = true /\
  (Transfer (healthy 2) "ghost" "Y" (of_Z (-5)) two_wallets).1 = Err ErrNoRows /\
  (Transfer (healthy 2) "ghost" "Y" (of_Z (-5)) two_wallets).2 = two_wallets /\
  Transfer (healthy 2) "X" "Y" (of_Z (-5)) two_wallets
    = (Ok tt, committed (healthy 2) "X" "Y" (of_Z (-5)) two_wallets).
Proof.
  assert (Hle : leb (of_Z (-5)) zero = true) by reflexivity.
  assert (He : (Transfer (healthy 2) "ghost" "Y" (of_Z (-5)) two_wallets).1 = Err ErrNoRows)
    by (vm_compute; reflexivity).
  assert (Hx : wallets two_wallets !! "X" = Some (of_Z 100)) by (vm_compute; reflexivity).
  split; [exact Hle|]. split; [exact He|]. split.
  - exact (proj1 (proj1 (proj2 (C2_no_amount_validation (healthy 2) "ghost" "Y" (of_Z (-5))
                                  two_wallets Hle)) ErrNoRows He)).
  - exact (proj2 (proj2 (C2_no_amount_validation (healthy 2) "X" "Y" (of_Z (-5))
                           two_wallets Hle)) (of_Z 100) (healthy_responsive 2) Hx eq_refl).
Defined.

(** ** Balances below zero *)

(** What the guard [fromBalance < amount] achieves: as long as every
    amount is a finite float64 that is not below zero, no operation puts a
    wallet in debt.  Rounding does not matter here: the rounded difference
    of two floats is not below zero when the exact one is not. *)
Lemma initial_balance_nonneg : nonneg initial_balance.
Proof. split; reflexivity. Qed.

Lemma CreateWallet_solvent (env : Env) (id : string) (db : DB) :
  solvent db -> solvent (CreateWallet env id db).2.
Proof.
  intros Hs. unfold CreateWallet.
  destruct (faulty env CreateExec); [exact Hs|].
  destruct (wallets db !! id) eqn:Hid; [exact Hs|].
  intros j b. cbn [snd wallets]. rewrite lookup_insert.
  case_decide.
  - intros Hb; injection Hb as <-. exact initial_balance_nonneg.
  - apply Hs.
Qed.

Lemma Transfer_solvent (env : Env) (fromID toID : string) (amount : float64) (db : DB) :
  nonneg amount -> is_finite amount = true ->
  solvent db -> solvent (Transfer env fromID toID amount db).2.
Proof.
  intros Ha Hfin Hs.
  destruct (Transfer env fromID toID amount db) as [[[]|e] db'] eqn:HT; cbn [snd].
  2:{ apply Transfer_err_inv in HT as [-> _]. exact Hs. }
  apply Transfer_ok_inv in HT as (bf & Hf & Hlt & ->).
  intros j b.
  destruct (decide (j = fromID)) as [Hjf|Hjf]; destruct (decide (j = toID)) as [Hjt|Hjt];
    subst.
  - rewrite (committed_lookup_self _ _ _ _ _ Hf). intros H; injection H as <-.
    apply add_nonneg; [|exact Ha].
    apply sub_nonneg; auto. exact (Hs _ _ Hf).
  - rewrite (committed_lookup_from _ _ _ _ _ _ Hjt Hf). intros H; injection H as <-.
    apply sub_nonneg; auto. exact (Hs _ _ Hf).
  - unfold committed; cbn [wallets].
    rewrite lookup_alter_eq, lookup_alter_ne by congruence.
    destruct (wallets db !! toID) as [bt|] eqn:Ht; [|discriminate].
    intros H; injection H as <-.
    apply add_nonneg; [|exact Ha]. exact (Hs _ _ Ht).
  - rewrite committed_lookup_other by assumption. apply Hs.
Qed.

Lemma run_solvent (ops : list (Env * op)) (db : DB) :
  amounts_nonneg ops -> solvent db -> solvent (run ops db).
Proof.
  revert db. induction ops as [|[env o] rest IH]; intros db Ha Hs; [exact Hs|].
  inversion Ha as [|? ? Ho Hrest]; subst. cbn [run]. apply IH; [exact Hrest|].
  destruct o as [id|id|fromID toID amount|id]; cbn [exec]; try exact Hs.
  - apply CreateWallet_solvent. exact Hs.
  - cbn in Ho. destruct Ho as [Hn Hfin]. apply Transfer_solvent; assumption.
Qed.

(** C3, counterexample: on the two fresh wallets, [Transfer(X, Y, -1000)]
    passes the guard (100 is not below -1000), succeeds and leaves Y with
    the balance -900, which [GetWallet] then reports. *)
Lemma C3_counterexample :
  let ops := [(healthy 0, OpCreateAccount "X"); (healthy 1, OpCreateAccount "Y");
              (healthy 2, OpTransfer "X" "Y" (of_Z (-1000)))] in
  ~ never_in_debt ops empty_db /\
  (Transfer (healthy 2) "X" "Y" (of_Z (-1000)) two_wallets).1 = Ok tt /\
  GetWallet (healthy 3) "Y" (run ops empty_db) = Ok {| ID := "Y"; Balance := of_Z (-900) |} /\
  GetWallet (healthy 3) "X" (run ops empty_db) = Ok {| ID := "X"; Balance := of_Z 1100 |} /\
  ltb (of_Z (-900)) zero = true.
Proof.
  split.
  - intros H. specialize (H "Y" (of_Z (-900)) ltac:(vm_compute; reflexivity)).
    vm_compute in H. discriminate H.
  - vm_compute. repeat split.
Qed.

(** C3, amended: starting from a store with no wallet in debt (the empty
    store, for one), after every sequence of operations (CreateAccount,
    GetBalance, Transfer, GetHistory) in which every transfer amount is a
    finite float64 that is not below zero, every balance is a valid
    float64 that is not below zero, and that is what [GetWallet] reports.
    The code does not check the amounts itself. *)
Theorem C3_balances_nonneg (ops : list (Env * op)) (db : DB) :
  solvent db ->
  amounts_nonneg ops ->
  solvent (run ops db) /\
  forall env id w,
    GetWallet env id (run ops db) = Ok w -> leb zero (Balance w) = true.
Proof.
  intros Hs Ha.
  assert (Hrun : solvent (run ops db)) by (apply run_solvent; assumption).
  split; [exact Hrun|].
  intros env id w. unfold GetWallet.
  destruct (faulty env WalletQueryRow); [discriminate|].
  destruct (wallets (run ops db) !! id) as [b|] eqn:Hb; [|discriminate].
  intros H; injection H as <-. cbn [Balance].
  exact (proj2 (Hrun _ _ Hb)).
Qed.

Lemma C3_balances_nonneg_witness :
  let ops := [(healthy 0, OpCreateAccount "X"); (healthy 1, OpCreateAccount "Y");
              (healthy 2, OpTransfer "X" "Y" (of_Z 50));
              (healthy 3, OpTransfer "Y" "X" (lit 1205 1));
              (healthy 4, OpTransfer "X" "Y" (of_Z 1000));
              (healthy 5, OpGetBalance "X")] in
  solvent (run ops empty_db) /\
  wallets (run ops empty_db) !! "Y" = Some (lit 295 1).
Proof.
  intros ops. split.
  - apply (C3_balances_nonneg ops empty_db).
    + intros id b Hb. cbn [empty_db wallets] in Hb.
      rewrite lookup_empty in Hb. discriminate Hb.
    + repeat constructor.
  - vm_compute. reflexivity.
Defined.

(** ** Insufficient funds *)

(** C5: when the sender exists and its balance is strictly below the
    amount, [Transfer] fails with InsufficientFunds and the store (every
    balance and the log) is exactly as before the call.  The store has to
    answer the two calls made before the check, [Begin] and the SELECT. *)
Theorem C5_insufficient_funds (env : Env) (fromID toID : string) (amount fromBalance : float64) (db : DB) :
  faulty env TxBegin = false ->
  faulty env TxSelect = false ->
  wallets db !! fromID = Some fromBalance ->
  ltb fromBalance amount = true ->
  Transfer env fromID toID amount db = (Err ErrInsufficientFunds, db) /\
  fails_with (Transfer env fromID toID amount db).1 InsufficientFunds /\
  (Transfer env fromID toID amount db).2 = db.
Proof.
  intros Hb Hs Hfrom Hlt.
  assert (HT : Transfer env fromID toID amount db = (Err ErrInsufficientFunds, db)).
  { unfold Transfer, atomically, transfer_body, bind, driver, select_balance, throw.
    rewrite Hb, Hs, Hfrom, Hlt. reflexivity. }
  rewrite HT. repeat split.
  exists ErrInsufficientFunds. split; reflexivity.
Qed.

(** The scenario of the specification: X holds 50 and is asked for 1000. *)
Lemma C5_insufficient_funds_witness :
  wallets after_fifty !! "X" = Some (of_Z 50) /\
  ltb (of_Z 50) (of_Z 1000) = true /\
  Transfer (healthy 3) "X" "Y" (of_Z 1000) after_fifty = (Err ErrInsufficientFunds, after_fifty) /\
  GetWallet (healthy 4) "X" (Transfer (healthy 3) "X" "Y" (of_Z 1000) after_fifty).2
    = Ok {| ID := "X"; Balance := of_Z 50 |}.
Proof.
  assert (Hx : wallets after_fifty !! "X" = Some (of_Z 50)) by (vm_compute; reflexivity).
  assert (Hlt : ltb (of_Z 50) (of_Z 1000) = true) by reflexivity.
  pose proof (C5_insufficient_funds (healthy 3) "X" "Y" (of_Z 1000) (of_Z 50) after_fifty
                eq_refl eq_refl Hx Hlt) as [HT [_ Hdb]].
  split; [exact Hx|]. split; [exact Hlt|]. split; [exact HT|].
  rewrite Hdb. unfold GetWallet. simpl. rewrite Hx. reflexivity.
Defined.

(** ** Creating wallets, reading them back, and the history *)

Lemma initial_balance_100 : initial_balance = of_Z 100.
Proof. reflexivity. Qed.

(** A successful [CreateWallet] took a free id and inserted one row with
    the initial balance. *)
Lemma CreateWallet_ok_inv (env : Env) (id : string) (db db' : DB) (w : Wallet) :
  CreateWallet env id db = (Ok w, db') ->
  wallets db !! id = None /\
  w = {| ID := id; Balance := initial_balance |} /\
  db' = {| wallets := <[id := initial_balance]> (wallets db);
           transactions := transactions db |}.
Proof.
  unfold CreateWallet.
  destruct (faulty env CreateExec); [discriminate|].
  destruct (wallets db !! id); [discriminate|].
  intros H; injection H as <- <-. auto.
Qed.






Lemma filter_none {A} (p : A -> bool) (l : list A) :
  Forall (fun x => p x = false) l -> List.filter p l = [].
Proof.
  induction 1 as [|x l Hx _ IH]; simpl; [reflexivity|].
  rewrite Hx. exact IH.
Qed.



(** ** The sum of all balances *)

Lemma sum_units_insert_fresh (m : gmap string float64) (i : string) (b : float64) :
  m !! i = None -> sum_units (<[i := b]> m) = units b + sum_units m.
Proof.
  intros Hi. unfold sum_units.
  apply (map_fold_insert_L (fun _ b acc => units b + acc)); [|exact Hi].
  intros; lia.
Qed.

Lemma sum_units_delete (m : gmap string float64) (i : string) (b : float64) :
  m !! i = Some b -> sum_units m = units b + sum_units (delete i m).
Proof.
  intros Hi. unfold sum_units.
  apply (map_fold_delete_L (fun _ b acc => units b + acc)); [|exact Hi].
  intros; lia.
Qed.

(** Rewriting one row changes the sum by the difference of the two values. *)
Lemma sum_units_alter (f : float64 -> float64) (m : gmap string float64) (i : string) (b : float64) :
  m !! i = Some b ->
  sum_units (alter f i m) = sum_units m - units b + units (f b).
Proof.
  intros Hi.
  assert (Ha : alter f i m = <[i := f b]> (delete i m)).
  { apply map_eq. intros j. destruct (decide (j = i)) as [->|Hne].
    - rewrite lookup_alter_eq, lookup_insert_eq, Hi. reflexivity.
    - rewrite lookup_alter_ne, lookup_insert_ne, lookup_delete_ne by congruence.
      reflexivity. }
  rewrite Ha, sum_units_insert_fresh by apply lookup_delete_eq.
  rewrite (sum_units_delete m i b Hi). lia.
Qed.

(** An UPDATE that finds no row leaves the sum alone. *)
Lemma sum_units_alter_missing (f : float64 -> float64) (m : gmap string float64) (i : string) :
  m !! i = None -> sum_units (alter f i m) = sum_units m.
Proof.
  intros Hi. f_equal. apply map_eq. intros j.
  destruct (decide (j = i)) as [->|Hne].
  - rewrite lookup_alter_eq, Hi. reflexivity.
  - rewrite lookup_alter_ne by congruence. reflexivity.
Qed.

(** What a committed transfer between existing wallets does to the sum:
    it adds the two rounding errors, that of the debit and that of the
    credit. *)
Lemma total_committed (env : Env) (fromID toID : string) (amount bf bt : float64) (db : DB) :
  wallets db !! fromID = Some bf ->
  wallets db !! toID = Some bt ->
  let bc := balance_at_credit fromID toID amount bf bt in
  total (committed env fromID toID amount db) =
    total db + (units (sub bf amount) - units bf) + (units (add bc amount) - units bc).
Proof.
  intros Hf Ht bc. unfold total, committed; cbn [wallets].
  assert (Hc : alter (fun balance => sub balance amount) fromID (wallets db) !! toID = Some bc).
  { unfold bc, balance_at_credit. destruct (decide (fromID = toID)) as [<-|Hne].
    - rewrite lookup_alter_eq, Hf. reflexivity.
    - rewrite lookup_alter_ne by exact Hne. exact Ht. }
  rewrite (sum_units_alter _ _ _ _ Hc), (sum_units_alter _ _ _ _ Hf). lia.
Qed.

(** Successful exact transfers keep the sum. *)
Lemma exact_transfers_conserve (ops : list (Env * op)) (db : DB) :
  successful_transfers ops db ->
  exact_transfers ops db ->
  total (run ops db) = total db.
Proof.
  revert db. induction ops as [|[env o] rest IH]; intros db Hs He; [reflexivity|].
  destruct o as [id|id|fromID toID amount|id]; simpl in Hs, He; try contradiction.
  destruct Hs as [Hok Hs], He as [(bf & bt & Hf & Ht & Hsub & Hadd) He].
  simpl. rewrite (IH _ Hs He).
  destruct (Transfer env fromID toID amount db) as [r db'] eqn:HT.
  simpl in Hok |- *. subst r.
  apply Transfer_ok_inv in HT as (b & _ & _ & ->).
  rewrite (total_committed _ _ _ _ _ _ _ Hf Ht). cbn zeta.
  destruct Hsub as (_ & _ & _ & Hsub), Hadd as (_ & _ & _ & Hadd). lia.
Qed.

(** C4, counterexample: X holds 70, Y holds 130, and X pays 0.2 to Y.
    Both wallets exist and the transfer succeeds, but 69.8 and 130.2 are
    rounded in different binades and the sum of the two balances is no
    longer what it was. *)
Lemma C4_counterexample :
  let db := after_thirty in
  let ops := [(healthy 3, OpTransfer "X" "Y" (lit 2 1))] in
  ~ transfers_conserve ops db /\
  wallets db !! "X" = Some (of_Z 70) /\
  wallets db !! "Y" = Some (of_Z 130) /\
  successful_transfers ops db /\
  wallets (run ops db) !! "X" = Some (lit 698 1) /\
  wallets (run ops db) !! "Y" = Some (lit 1302 1) /\
  total (run ops db) <> total db.
Proof.
  assert (Hs : successful_transfers [(healthy 3, OpTransfer "X" "Y" (lit 2 1))] after_thirty)
    by (vm_compute; auto).
  assert (Hne : total (run [(healthy 3, OpTransfer "X" "Y" (lit 2 1))] after_thirty)
                <> total after_thirty)
    by (apply Z.eqb_neq; vm_compute; reflexivity).
  split; [intros H; exact (Hne (H Hs))|].
  split; [vm_compute; reflexivity|].
  split; [vm_compute; reflexivity|].
  split; [exact Hs|].
  split; [vm_compute; reflexivity|].
  split; [vm_compute; reflexivity|].
  exact Hne.
Qed.

(** C4, amended: a sequence of successful transfers between existing
    wallets keeps the sum of all balances whenever each debit and each
    credit is exact in float64 arithmetic (when an operation rounds, the
    sum moves by the rounding error); [CreateWallet] adds exactly the
    initial balance 100 to the sum; and a transfer that fails leaves the
    sum alone. *)
Theorem C4_conservation :
  (forall (ops : list (Env * op)) (db : DB),
     successful_transfers ops db ->
     exact_transfers ops db ->
     total (run ops db) = total db) /\
  (forall (env : Env) (id : string) (db db' : DB) (w : Wallet),
     CreateWallet env id db = (Ok w, db') ->
     total db' = total db + units (of_Z 100)) /\
  (forall (env : Env) (fromID toID : string) (amount : float64) (db : DB) (e : error),
     (Transfer env fromID toID amount db).1 = Err e ->
     total (Transfer env fromID toID amount db).2 = total db).
Proof.
  split; [exact exact_transfers_conserve|]. split.
  - intros env id db db' w Hc.
    apply CreateWallet_ok_inv in Hc as (Hfree & _ & ->).
    unfold total; cbn [wallets].
    rewrite sum_units_insert_fresh by exact Hfree.
    rewrite initial_balance_100. lia.
  - intros env fromID toID amount db e He.
    destruct (Transfer env fromID toID amount db) as [r db'] eqn:HT.
    cbn [fst snd] in *. subst r.
    apply Transfer_err_inv in HT as [-> _]. reflexivity.
Qed.

Lemma C4_conservation_witness :
  total (run [(healthy 2, OpTransfer "X" "Y" (of_Z 50));
              (healthy 3, OpTransfer "Y" "X" (of_Z 120))] two_wallets)
    = total two_wallets /\
  total two_wallets = total empty_db + units (of_Z 100) + units (of_Z 100).
Proof.
  split.
  - apply (proj1 C4_conservation).
    + vm_compute; auto.
    + split; [|split; [|exact I]].
      * exists (of_Z 100), (of_Z 100). vm_compute. repeat split.
      * exists (of_Z 150), (of_Z 50). vm_compute. repeat split.
  - rewrite (proj1 (proj2 C4_conservation) (healthy 1) "Y"
               (CreateWallet (healthy 0) "X" empty_db).2 two_wallets
               {| ID := "Y"; Balance := initial_balance |} eq_refl).
    rewrite (proj1 (proj2 C4_conservation) (healthy 0) "X" empty_db
               (CreateWallet (healthy 0) "X" empty_db).2
               {| ID := "X"; Balance := initial_balance |} eq_refl).
    reflexivity.
Defined.

(** ** Rounding *)

(** C8, counterexample: X holds 70, Y holds 130 and X pays 0.2 to Y.
    Neither new balance is the exact result: 70 - 0.2 and 130 + 0.2 are
    not float64 numbers and are rounded to the nearest ones. *)
Lemma C8_counterexample :
  let db := after_thirty in
  let out := Transfer (healthy 3) "X" "Y" (lit 2 1) db in
  ~ transfer_is_exact (healthy 3) "X" "Y" (lit 2 1) db /\
  out.1 = Ok tt /\
  wallets out.2 !! "X" = Some (sub (of_Z 70) (lit 2 1)) /\
  wallets out.2 !! "Y" = Some (add (of_Z 130) (lit 2 1)) /\
  units (sub (of_Z 70) (lit 2 1)) <> units (of_Z 70) - units (lit 2 1) /\
  units (add (of_Z 130) (lit 2 1)) <> units (of_Z 130) + units (lit 2 1).
Proof.
  assert (Hx : units (sub (of_Z 70) (lit 2 1)) <> units (of_Z 70) - units (lit 2 1))
    by (apply Z.eqb_neq; vm_compute; reflexivity).
  assert (Hy : units (add (of_Z 130) (lit 2 1)) <> units (of_Z 130) + units (lit 2 1))
    by (apply Z.eqb_neq; vm_compute; reflexivity).
  split.
  - intros H.
    destruct (H (of_Z 70) (of_Z 130) (sub (of_Z 70) (lit 2 1)) (add (of_Z 130) (lit 2 1)))
      as [Hex _]; try (vm_compute; reflexivity).
    exact (Hx Hex).
  - repeat split; try (vm_compute; reflexivity); assumption.
Qed.

(** C8, amended: balances and amounts are float64 values.  A successful
    transfer between two distinct existing wallets sets the sender's
    balance to the float64 difference and the recipient's to the float64
    sum, each rounded to the nearest float64; the new balances are the
    exact ones only when these two operations are exact, so transfers can
    accumulate rounding error. *)
Theorem C8_float64_updates (env : Env) (fromID toID : string) (amount bf bt : float64) (db db' : DB) :
  fromID <> toID ->
  wallets db !! fromID = Some bf ->
  wallets db !! toID = Some bt ->
  Transfer env fromID toID amount db = (Ok tt, db') ->
  wallets db' !! fromID = Some (sub bf amount) /\
  wallets db' !! toID = Some (add bt amount) /\
  (exact_sub bf amount -> units (sub bf amount) = units bf - units amount) /\
  (exact_add bt amount -> units (add bt amount) = units bt + units amount) /\
  total db' - total db =
    (units (sub bf amount) - (units bf - units amount)) +
    (units (add bt amount) - (units bt + units amount)).
Proof.
  intros Hne Hf Ht HT.
  apply Transfer_ok_inv in HT as (b & _ & _ & ->).
  split; [exact (committed_lookup_from _ _ _ _ _ _ Hne Hf)|].
  split; [exact (committed_lookup_to _ _ _ _ _ _ Hne Ht)|].
  split; [intros (_ & _ & _ & H); exact H|].
  split; [intros (_ & _ & _ & H); exact H|].
  rewrite (total_committed _ _ _ _ _ _ _ Hf Ht). cbn zeta.
  unfold balance_at_credit. destruct (decide (fromID = toID)); [contradiction|]. lia.
Qed.

Lemma C8_float64_updates_witness :
  wallets (Transfer (healthy 3) "X" "Y" (lit 2 1) after_thirty).2 !! "X"
    = Some (sub (of_Z 70) (lit 2 1)) /\
  wallets (Transfer (healthy 3) "X" "Y" (lit 2 1) after_thirty).2 !! "Y"
    = Some (add (of_Z 130) (lit 2 1)).
Proof.
  assert (Hne : "X" <> "Y") by discriminate.
  assert (Hf : wallets after_thirty !! "X" = Some (of_Z 70)) by (vm_compute; reflexivity).
  assert (Ht : wallets after_thirty !! "Y" = Some (of_Z 130)) by (vm_compute; reflexivity).
  destruct (C8_float64_updates (healthy 3) "X" "Y" (lit 2 1) (of_Z 70) (of_Z 130)
              after_thirty (Transfer (healthy 3) "X" "Y" (lit 2 1) after_thirty).2
              Hne Hf Ht) as (Hx & Hy & _).
  - vm_compute. reflexivity.
  - split; [exact Hx | exact Hy].
Defined.

(** ** Row locks *)

Arguments add : simpl never.
Arguments sub : simpl never.
Arguments ltb : simpl never.

Ltac run_statement :=
  try unfold step at 1; unfold update_row, lock_row, put, at_stage; cbn.
Ltac own_lock := rewrite decide_True by reflexivity; cbn.
Ltac foreign_lock := rewrite decide_False by discriminate; cbn.

(** Releasing the locks of the only holder empties the lock table. *)
Lemma release_all (i : nat) (locks : gmap string nat) :
  (forall id j, locks !! id = Some j -> j = i) -> release i locks = ∅.
Proof.
  intros H. apply map_empty. intros id. unfold release.
  apply map_lookup_filter_None. right. intros j Hj Hne. simpl in Hne.
  apply Hne. exact (H _ _ Hj).
Qed.

(** A transfer between two distinct existing wallets, run alone with
    enough funds: five statements, the sender's row locked first and the
    recipient's second, the store left as [Transfer] leaves it and every
    lock released. *)
Lemma solo_transfer (t : Z) (fromID toID : string) (amount bf bt : float64) (db : DB) :
  fromID <> toID ->
  wallets db !! fromID = Some bf ->
  wallets db !! toID = Some bt ->
  ltb bf amount = false ->
  steps [0; 0; 0; 0; 0]%nat (concurrently [begun t fromID toID amount] db) =
    Some {| s_db := committed (healthy t) fromID toID amount db;
            s_locks := ∅;
            s_workers := [{| w_now := t; w_from := fromID; w_to := toID;
                             w_amount := amount; w_stage := Finished (Ok tt);
                             w_acquired := [fromID; toID] |}] |}.
Proof.
  intros Hne Hf Ht Hlt.
  unfold concurrently, begun. cbn [steps].
  run_statement. rewrite Hf, lookup_empty, Hlt. cbn.
  run_statement. rewrite Hf, lookup_insert_eq. own_lock.
  run_statement. rewrite lookup_alter_ne, Ht, lookup_insert_ne by congruence.
  rewrite lookup_empty. cbn.
  run_statement.
  run_statement.
  rewrite release_all.
  - reflexivity.
  - intros id j. rewrite !lookup_insert, lookup_empty.
    repeat case_decide; congruence.
Qed.

Ltac locks_released :=
  try (apply release_all; intros ? ?; rewrite ?lookup_insert, lookup_empty;
       repeat case_decide; congruence).

(** X22: run alone, a worker does what [Transfer] does on a store that answers:
    it finishes with the same result, leaves the same store and holds no
    lock at the end, whether the sender exists or not, can pay or not, and
    whether the recipient exists, is the sender, or is missing. *)
Lemma solo_refines_Transfer (t : Z) (fromID toID : string) (amount : float64) (db : DB) :
  exists n s w,
    steps (replicate n 0%nat) (concurrently [begun t fromID toID amount] db) = Some s /\
    s_workers s = [w] /\
    w_stage w = Finished (Transfer (healthy t) fromID toID amount db).1 /\
    s_db s = (Transfer (healthy t) fromID toID amount db).2 /\
    s_locks s = ∅.
Proof.
  rewrite Transfer_responsive by apply healthy_responsive.
  destruct (wallets db !! fromID) as [bf|] eqn:Hf.
  2:{ exists 1%nat. eexists _, _. split.
      - unfold concurrently, begun. cbn [steps replicate].
        run_statement. rewrite Hf. cbn. reflexivity.
      - cbn. repeat split; locks_released. }
  destruct (ltb bf amount) eqn:Hlt.
  { exists 1%nat. eexists _, _. split.
    - unfold concurrently, begun. cbn [steps replicate].
      run_statement. rewrite Hf, lookup_empty, Hlt. cbn. reflexivity.
    - cbn. repeat split; locks_released. }
  exists 5%nat.
  destruct (decide (fromID = toID)) as [<-|Hne].
  { eexists _, _. split.
    - unfold concurrently, begun. cbn [steps replicate].
      run_statement. rewrite Hf, lookup_empty, Hlt. cbn.
      run_statement. rewrite Hf, lookup_insert_eq. own_lock.
      run_statement. rewrite lookup_alter_eq, Hf, lookup_insert_eq. cbn. own_lock.
      run_statement. run_statement. reflexivity.
    - cbn. repeat split; locks_released. }
  destruct (wallets db !! toID) as [bt|] eqn:Ht.
  - eexists _, _. split; [exact (solo_transfer t fromID toID amount bf bt db Hne Hf Ht Hlt)|].
    cbn. repeat split.
  - eexists _, _. split.
    + unfold concurrently, begun. cbn [steps replicate].
      run_statement. rewrite Hf, lookup_empty, Hlt. cbn.
      run_statement. rewrite Hf, lookup_insert_eq. own_lock.
      run_statement. rewrite lookup_alter_ne, Ht by congruence. cbn.
      run_statement. run_statement. reflexivity.
    + cbn. repeat split; locks_released.
      unfold committed, record_of; cbn [now healthy]. f_equal.
      apply map_eq. intros i.
      destruct (decide (i = toID)) as [->|Hi].
      * rewrite lookup_alter_eq, !lookup_alter_ne, Ht by congruence. reflexivity.
      * rewrite (lookup_alter_ne _ _ toID) by congruence. reflexivity.
Qed.

(** Two opposite transfers between distinct existing wallets, each with
    enough funds: when each runs its SELECT and its debit before the other
    runs its credit, each holds the lock of its own sender and waits for
    the lock of the other's. *)
Lemma circular_wait (t0 t1 : Z) (A B : string) (a0 a1 bA bB : float64) (db : DB) :
  A <> B ->
  wallets db !! A = Some bA ->
  wallets db !! B = Some bB ->
  ltb bA a0 = false ->
  ltb bB a1 = false ->
  exists s,
    steps [0; 1; 0; 1]%nat
      (concurrently [begun t0 A B a0; begun t1 B A a1] db) = Some s /\
    stuck s /\ waits_for s 0 1 /\ waits_for s 1 0.
Proof.
  intros Hne HA HB H0 H1.
  eexists. split.
  - unfold concurrently, begun. cbn [steps].
    run_statement. rewrite HA, lookup_empty, H0. cbn.
    run_statement. rewrite HB, lookup_insert_ne, lookup_empty, H1 by congruence. cbn.
    run_statement. rewrite HA, lookup_insert_ne, lookup_insert_eq by congruence. own_lock.
    run_statement. rewrite lookup_alter_ne, HB, lookup_insert_eq by congruence. own_lock.
    reflexivity.
  - split; [split|split].
    + exists 0%nat. eexists. split; reflexivity.
    + intros [|[|i]]; [| |reflexivity].
      * run_statement.
        rewrite lookup_alter_eq, lookup_alter_ne, HB, lookup_insert_eq by congruence.
        cbn. foreign_lock. reflexivity.
      * run_statement.
        rewrite lookup_alter_ne, lookup_alter_eq, HA by congruence. cbn.
        rewrite lookup_insert_ne, lookup_insert_eq by congruence.
        foreign_lock. reflexivity.
    + eexists _, B. cbn. split; [reflexivity|]. split; [discriminate|].
      split; [apply lookup_insert_eq|]. right; right. split; reflexivity.
    + eexists _, A. cbn. split; [reflexivity|]. split; [discriminate|].
      split; [rewrite lookup_insert_ne by congruence; apply lookup_insert_eq|].
      right; right. split; reflexivity.
Qed.

(** C9, counterexample: on the two fresh wallets, [Transfer(X, Y, 10)]
    locks X and then Y while [Transfer(Y, X, 10)] locks Y and then X; and
    started together, after the SELECT and the debit of each, both wait
    for ever. *)
Lemma C9_counterexample :
  ~ direction_blind_locking 2 "X" "Y" (of_Z 10) two_wallets /\
  ~ never_stuck (concurrently [begun 2 "X" "Y" (of_Z 10); begun 3 "Y" "X" (of_Z 10)]
                   two_wallets).
Proof.
  assert (Hxy : "X" <> "Y") by discriminate.
  assert (Hyx : "Y" <> "X") by discriminate.
  assert (Hx : wallets two_wallets !! "X" = Some (of_Z 100)) by (vm_compute; reflexivity).
  assert (Hy : wallets two_wallets !! "Y" = Some (of_Z 100)) by (vm_compute; reflexivity).
  assert (Hlt : ltb (of_Z 100) (of_Z 10) = false) by reflexivity.
  split.
  - intros H.
    specialize (H _ _ _ _ (solo_transfer 2 "X" "Y" _ _ _ _ Hxy Hx Hy Hlt)
                  (solo_transfer 2 "Y" "X" _ _ _ _ Hyx Hy Hx Hlt) eq_refl eq_refl).
    discriminate H.
  - intros H.
    destruct (circular_wait 2 3 "X" "Y" _ _ _ _ _ Hxy Hx Hy Hlt Hlt) as (s & Hs & Hstuck & _).
    exact (H _ _ Hs Hstuck).
Qed.

(** C9, amended: every [Transfer] locks the row of its sender first (at
    the SELECT ... FOR UPDATE) and the row of its recipient second (at the
    credit UPDATE): the order follows the direction of the transfer, not
    an order on the account ids.  Run alone, a transfer between two
    distinct existing wallets with enough funds completes and releases its
    locks; two opposite transfers A to B and B to A with enough funds have
    an interleaving in which each holds its sender's row and waits for the
    other's, and neither completes unless the store breaks the wait. *)
Theorem C9_locks_follow_direction (t0 t1 : Z) (A B : string) (a0 a1 bA bB : float64) (db : DB) :
  A <> B ->
  wallets db !! A = Some bA ->
  wallets db !! B = Some bB ->
  ltb bA a0 = false ->
  ltb bB a1 = false ->
  (exists s w,
     steps [0; 0; 0; 0; 0]%nat (concurrently [begun t0 A B a0] db) = Some s /\
     s_workers s = [w] /\ w_stage w = Finished (Ok tt) /\
     w_acquired w = [A; B] /\ s_locks s = ∅ /\
     s_db s = (Transfer (healthy t0) A B a0 db).2) /\
  (exists s w,
     steps [0; 0; 0; 0; 0]%nat (concurrently [begun t1 B A a1] db) = Some s /\
     s_workers s = [w] /\ w_stage w = Finished (Ok tt) /\
     w_acquired w = [B; A] /\ s_locks s = ∅ /\
     s_db s = (Transfer (healthy t1) B A a1 db).2) /\
  (exists s,
     steps [0; 1; 0; 1]%nat
       (concurrently [begun t0 A B a0; begun t1 B A a1] db) = Some s /\
     stuck s /\ waits_for s 0 1 /\ waits_for s 1 0).
Proof.
  intros Hne HA HB H0 H1.
  assert (Hne' : B <> A) by congruence.
  split; [|split].
  - eexists _, _. split; [exact (solo_transfer t0 A B a0 bA bB db Hne HA HB H0)|].
    cbn [s_workers w_stage w_acquired s_locks s_db]. repeat split.
    rewrite Transfer_responsive by apply healthy_responsive.
    rewrite HA, H0. reflexivity.
  - eexists _, _. split; [exact (solo_transfer t1 B A a1 bB bA db Hne' HB HA H1)|].
    cbn [s_workers w_stage w_acquired s_locks s_db]. repeat split.
    rewrite Transfer_responsive by apply healthy_responsive.
    rewrite HB, H1. reflexivity.
  - exact (circular_wait t0 t1 A B a0 a1 bA bB db Hne HA HB H0 H1).
Qed.

Lemma C9_locks_follow_direction_witness :
  exists s,
    steps [0; 1; 0; 1]%nat
      (concurrently [begun 2 "X" "Y" (of_Z 10); begun 3 "Y" "X" (of_Z 10)] two_wallets)
      = Some s /\
    stuck s /\ waits_for s 0 1 /\ waits_for s 1 0.
Proof.
  assert (Hxy : "X" <> "Y") by discriminate.
  assert (Hx : wallets two_wallets !! "X" = Some (of_Z 100)) by (vm_compute; reflexivity).
  assert (Hy : wallets two_wallets !! "Y" = Some (of_Z 100)) by (vm_compute; reflexivity).
  assert (Hlt : ltb (of_Z 100) (of_Z 10) = false) by reflexivity.
  exact (proj2 (proj2 (C9_locks_follow_direction 2 3 "X" "Y" (of_Z 10) (of_Z 10)
                         (of_Z 100) (of_Z 100) two_wallets Hxy Hx Hy Hlt Hlt))).
Defined.

(** ** Transfers from a wallet to itself *)

(** Comparing two floats the other way round gives the opposite answer. *)
Lemma SFcompare_swap (x y : float64) :
  SFcompare y x = option_map CompOpp (SFcompare x y).
Proof.
  destruct x as [sx|sx| |sx mx ex], y as [sy|sy| |sy my ey]; simpl;
    repeat match goal with s : bool |- _ => destruct s end;
    simpl; try reflexivity;
    rewrite (Z.compare_antisym ex ey);
    destruct (ex ?= ey); simpl; try reflexivity;
    pose proof (Pos.compare_cont_antisym mx my Eq) as Hm; simpl in Hm;
    rewrite <- Hm; reflexivity.
Qed.

(** Go's [fromBalance < amount] is false whenever [amount <= fromBalance]. *)
Lemma leb_not_ltb (x y : float64) : leb x y = true -> ltb y x = false.
Proof.
  unfold leb, ltb, SFleb, SFltb. rewrite (SFcompare_swap x y).
  destruct (SFcompare x y) as [[| |]|]; simpl; congruence.
Qed.

(** C10, counterexample: X holds 69.8 and transfers 4.43 to itself.  The
    debit rounds 65.37 to the nearest float64 and the credit rounds
    again: X ends with 69.80000000000001, one unit in the last place
    more than before. *)
Lemma C10_counterexample :
  let db := after_thirty_point_two in
  let out := Transfer (healthy 3) "X" "X" (lit 443 2) db in
  ~ self_transfer_cancels (healthy 3) "X" (lit 443 2) db /\
  wallets db !! "X" = Some (lit 698 1) /\
  leb (lit 443 2) (lit 698 1) = true /\
  out.1 = Ok tt /\
  wallets out.2 !! "X" = Some (S754_finite false 4911738343600948 (-46)) /\
  lit 698 1 = S754_finite false 4911738343600947 (-46).
Proof.
  split.
  - intros H.
    destruct (H (lit 698 1)) as (_ & Hb & _);
      [vm_compute; reflexivity | reflexivity |].
    vm_compute in Hb. discriminate.
  - vm_compute. repeat split.
Qed.

(** C10, amended: a self-transfer on an existing wallet whose balance is
    at least the amount succeeds when the store answers, appends exactly
    one record with from = to = id and that amount, and leaves the other
    wallets alone; the wallet's own balance is debited and then credited
    in float64 arithmetic, so it becomes [(b - amount) + amount], which is
    [b] again in value when neither operation rounds. *)
Theorem C10_self_transfer (env : Env) (id : string) (amount b : float64) (db : DB) :
  responsive env ->
  wallets db !! id = Some b ->
  leb amount b = true ->
  (Transfer env id id amount db).1 = Ok tt /\
  wallets (Transfer env id id amount db).2 !! id = Some (add (sub b amount) amount) /\
  (forall j, j <> id -> wallets (Transfer env id id amount db).2 !! j = wallets db !! j) /\
  transactions (Transfer env id id amount db).2 =
    transactions db ++ [{| Time := now env; From := id; To := id; Amount := amount |}] /\
  (exact_sub b amount -> exact_add (sub b amount) amount ->
   units (add (sub b amount) amount) = units b).
Proof.
  intros Hr Hb Hle.
  rewrite Transfer_responsive by exact Hr.
  rewrite Hb, (leb_not_ltb _ _ Hle). cbn [fst snd].
  split; [reflexivity|].
  split; [exact (committed_lookup_self _ _ _ _ _ Hb)|].
  split; [intros j Hj; apply committed_lookup_other; exact Hj|].
  split; [reflexivity|].
  intros (_ & _ & _ & Hs) (_ & _ & _ & Ha). lia.
Qed.

Lemma C10_self_transfer_witness :
  (Transfer (healthy 3) "X" "X" (of_Z 20) after_fifty).1 = Ok tt /\
  wallets (Transfer (healthy 3) "X" "X" (of_Z 20) after_fifty).2 !! "X"
    = Some (add (sub (of_Z 50) (of_Z 20)) (of_Z 20)) /\
  units (add (sub (of_Z 50) (of_Z 20)) (of_Z 20)) = units (of_Z 50).
Proof.
  assert (Hb : wallets after_fifty !! "X" = Some (of_Z 50)) by (vm_compute; reflexivity).
  assert (Hle : leb (of_Z 20) (of_Z 50) = true) by reflexivity.
  destruct (C10_self_transfer (healthy 3) "X" (of_Z 20) (of_Z 50) after_fifty
              (healthy_responsive 3) Hb Hle) as (Hok & Hx & _ & _ & Hex).
  split; [exact Hok|]. split; [exact Hx|].
  apply Hex; vm_compute; repeat split.
Defined.

(** * Further properties of the store *)

(** ** [Transfer]: all or nothing *)

(** The two ways a call of [Transfer] can end. *)
Lemma Transfer_cases (env : Env) (fromID toID : string) (amount : float64) (db : DB) :
  (exists e, Transfer env fromID toID amount db = (Err e, db)) \/
  Transfer env fromID toID amount db = (Ok tt, committed env fromID toID amount db).
Proof.
  destruct (Transfer env fromID toID amount db) as [[[]|e] db'] eqn:HT.
  - right. apply Transfer_ok_inv in HT as (b & _ & _ & ->). reflexivity.
  - left. apply Transfer_err_inv in HT as [-> _]. eauto.
Qed.


(** X2: when no wallet has the sender's id, [Transfer] fails with
    [sql.ErrNoRows] and changes nothing, whatever the recipient and the
    amount are; the store only has to answer [Begin] and the SELECT. *)
Theorem Transfer_missing_sender (env : Env) (fromID toID : string) (amount : float64) (db : DB) :
  faulty env TxBegin = false ->
  faulty env TxSelect = false ->
  wallets db !! fromID = None ->
  Transfer env fromID toID amount db = (Err ErrNoRows, db) /\
  kind_of ErrNoRows = NotFound.
Proof.
  intros Hb Hs Hf.
  unfold Transfer, atomically, transfer_body, bind, driver, select_balance.
  rewrite Hb, Hs, Hf. split; reflexivity.
Qed.

Lemma Transfer_missing_sender_witness :
  Transfer (healthy 2) "ghost" "X" (of_Z 10) two_wallets = (Err ErrNoRows, two_wallets).
Proof.
  exact (proj1 (Transfer_missing_sender (healthy 2) "ghost" "X" (of_Z 10) two_wallets
                  eq_refl eq_refl eq_refl)).
Defined.

(** X3: on a store that answers every call, [Transfer] succeeds exactly
    when the sender has a wallet whose balance is not below the amount;
    the recipient plays no part in the decision. *)
Theorem Transfer_succeeds_iff (env : Env) (fromID toID : string) (amount : float64) (db : DB) :
  responsive env ->
  ((Transfer env fromID toID amount db).1 = Ok tt <->
   exists fromBalance,
     wallets db !! fromID = Some fromBalance /\ ltb fromBalance amount = false).
Proof.
  intros Hr. rewrite Transfer_responsive by exact Hr. split.
  - destruct (wallets db !! fromID) as [b|]; [|discriminate].
    destruct (ltb b amount) eqn:Hlt; [discriminate|]. eauto.
  - intros (b & -> & ->). reflexivity.
Qed.

Lemma Transfer_succeeds_iff_witness :
  (Transfer (healthy 2) "X" "nobody" (of_Z 100) two_wallets).1 = Ok tt /\
  (Transfer (healthy 2) "X" "Y" (lit 1001 1) two_wallets).1 <> Ok tt.
Proof.
  split.
  - apply (proj2 (Transfer_succeeds_iff (healthy 2) "X" "nobody" (of_Z 100) two_wallets
                    (healthy_responsive 2))).
    exists (of_Z 100). split; vm_compute; reflexivity.
  - intros H.
    apply (proj1 (Transfer_succeeds_iff (healthy 2) "X" "Y" (lit 1001 1) two_wallets
                    (healthy_responsive 2))) in H.
    destruct H as (b & Hb & Hlt).
    assert (Hx : wallets two_wallets !! "X" = Some (of_Z 100)) by (vm_compute; reflexivity).
    rewrite Hx in Hb. injection Hb as <-. vm_compute in Hlt. discriminate Hlt.
Defined.

Lemma Transfer_dom (env : Env) (fromID toID : string) (amount : float64) (db : DB) :
  dom (wallets (Transfer env fromID toID amount db).2) = dom (wallets db).
Proof.
  destruct (Transfer_cases env fromID toID amount db) as [[e ->]| ->];
    cbn [snd]; [reflexivity|].
  unfold committed; cbn [wallets]. rewrite !dom_alter_L. reflexivity.
Qed.

Lemma Transfer_other_balance (env : Env) (fromID toID j : string) (amount : float64) (db : DB) :
  j <> fromID -> j <> toID ->
  wallets (Transfer env fromID toID amount db).2 !! j = wallets db !! j.
Proof.
  intros H1 H2.
  destruct (Transfer_cases env fromID toID amount db) as [[e ->]| ->];
    cbn [snd]; [reflexivity|].
  apply committed_lookup_other; assumption.
Qed.

(** X4: [Transfer] never creates and never removes a wallet, not even
    when the recipient does not exist, and it never touches the balance
    of a wallet that is neither its sender nor its recipient. *)
Theorem Transfer_keeps_wallets (env : Env) (fromID toID : string) (amount : float64) (db : DB) :
  dom (wallets (Transfer env fromID toID amount db).2) = dom (wallets db) /\
  forall j, j <> fromID -> j <> toID ->
            wallets (Transfer env fromID toID amount db).2 !! j = wallets db !! j.
Proof.
  split.
  - apply Transfer_dom.
  - intros j H1 H2. apply Transfer_other_balance; assumption.
Qed.

Lemma Transfer_keeps_wallets_witness :
  dom (wallets (Transfer (healthy 2) "X" "nonexistent" (of_Z 10) two_wallets).2)
    = dom (wallets two_wallets) /\
  wallets (Transfer (healthy 2) "X" "nonexistent" (of_Z 10) two_wallets).2 !! "Y"
    = wallets two_wallets !! "Y".
Proof.
  destruct (Transfer_keeps_wallets (healthy 2) "X" "nonexistent" (of_Z 10) two_wallets)
    as [Hd Hother].
  split; [exact Hd|]. apply Hother; discriminate.
Defined.

(** X5: emptying a wallet.  An amount equal to the sender's balance is
    not refused by the guard [fromBalance < amount]: on a store that
    answers, the transfer of a finite balance in full to another wallet
    succeeds and leaves the sender with exactly zero. *)
Theorem Transfer_whole_balance (env : Env) (fromID toID : string) (balance : float64) (db : DB) :
  responsive env ->
  fromID <> toID ->
  wallets db !! fromID = Some balance ->
  is_finite balance = true ->
  (Transfer env fromID toID balance db).1 = Ok tt /\
  wallets (Transfer env fromID toID balance db).2 !! fromID = Some zero.
Proof.
  intros Hr Hne Hb Hfin.
  assert (Hlt : ltb balance balance = false).
  { unfold ltb, SFltb. destruct balance as [s|s| |s m e]; try discriminate Hfin.
    - reflexivity.
    - cbn. destruct s; rewrite Z.compare_refl, Pos.compare_cont_refl; reflexivity. }
  assert (Hsub : sub balance balance = zero).
  { destruct balance as [s|s| |s m e]; try discriminate Hfin.
    - destruct s; reflexivity.
    - unfold sub, SFsub. rewrite Z.sub_diag. reflexivity. }
  rewrite Transfer_responsive by exact Hr. rewrite Hb, Hlt. cbn [fst snd].
  split; [reflexivity|].
  rewrite (committed_lookup_from _ _ _ _ _ _ Hne Hb), Hsub. reflexivity.
Qed.

Lemma Transfer_whole_balance_witness :
  (Transfer (healthy 2) "X" "Y" (of_Z 100) two_wallets).1 = Ok tt /\
  wallets (Transfer (healthy 2) "X" "Y" (of_Z 100) two_wallets).2 !! "X" = Some zero.
Proof.
  apply (Transfer_whole_balance (healthy 2) "X" "Y" (of_Z 100) two_wallets
           (healthy_responsive 2)).
  - discriminate.
  - vm_compute. reflexivity.
  - reflexivity.
Defined.

(** X6: a driver fault anywhere in a transfer that would otherwise
    succeed.  If the driver reports an error at any of the six calls
    ([Begin], the SELECT, the two UPDATEs, the INSERT, [Commit]), the
    transfer fails with that driver error and nothing is written, also
    when the failing call is [Commit] and all three writes were issued. *)
Theorem Transfer_driver_fault (env : Env) (c : call) (fromID toID : string)
    (amount fromBalance : float64) (db : DB) :
  c = TxBegin \/ c = TxSelect \/ c = TxDebit \/ c = TxCredit \/ c = TxInsert \/ c = TxCommit ->
  faulty env c = true ->
  wallets db !! fromID = Some fromBalance ->
  ltb fromBalance amount = false ->
  Transfer env fromID toID amount db = (Err ErrDriver, db) /\
  kind_of ErrDriver = StoreError.
Proof.
  intros Hc Hfault Hb Hlt. split; [|reflexivity].
  unfold Transfer, atomically, transfer_body, bind, driver, select_balance,
    update_balance, insert_transaction, throw.
  destruct (faulty env TxBegin) eqn:H0; [reflexivity|].
  destruct (faulty env TxSelect) eqn:H1; [reflexivity|].
  rewrite Hb, Hlt.
  destruct (faulty env TxDebit) eqn:H2; [reflexivity|].
  destruct (faulty env TxCredit) eqn:H3; [reflexivity|].
  destruct (faulty env TxInsert) eqn:H4; [reflexivity|].
  destruct (faulty env TxCommit) eqn:H5; [reflexivity|].
  destruct Hc as [->|[->|[->|[->|[->| ->]]]]]; congruence.
Qed.

Lemma Transfer_driver_fault_witness :
  Transfer {| faulty := fun c => match c with TxCommit => true | _ => false end; now := 2 |}
    "X" "Y" (of_Z 50) two_wallets = (Err ErrDriver, two_wallets).
Proof.
  apply (Transfer_driver_fault _ TxCommit "X" "Y" (of_Z 50) (of_Z 100) two_wallets).
  - auto 10.
  - reflexivity.
  - vm_compute. reflexivity.
  - reflexivity.
Defined.

(** ** [CreateWallet] and [GetWallet] *)

(** A failed [CreateWallet] inserts nothing. *)
Lemma CreateWallet_err_inv (env : Env) (id : string) (db db' : DB) (e : error) :
  CreateWallet env id db = (Err e, db') -> db' = db.
Proof.
  unfold CreateWallet.
  destruct (faulty env CreateExec); [intros H; injection H as _ <-; reflexivity|].
  destruct (wallets db !! id); [intros H; injection H as _ <-; reflexivity|].
  discriminate.
Qed.

(** X7: insert and look up.  The wallet a successful [CreateWallet]
    returns is the one [GetWallet] reads back under its id; the call
    changes what [GetWallet] answers for no other id, and it leaves the
    log alone. *)
Theorem CreateWallet_then_GetWallet (env env' : Env) (id : string) (db db' : DB) (w : Wallet) :
  CreateWallet env id db = (Ok w, db') ->
  faulty env' WalletQueryRow = false ->
  GetWallet env' id db' = Ok w /\
  (forall j, j <> id -> GetWallet env' j db' = GetWallet env' j db) /\
  transactions db' = transactions db.
Proof.
  intros Hc Hq. apply CreateWallet_ok_inv in Hc as (_ & -> & ->).
  unfold GetWallet. rewrite Hq. cbn [wallets transactions].
  rewrite lookup_insert_eq. split; [reflexivity|]. split; [|reflexivity].
  intros j Hj. rewrite lookup_insert_ne by congruence. reflexivity.
Qed.

Lemma CreateWallet_then_GetWallet_witness :
  GetWallet (healthy 2) "Y" two_wallets = Ok {| ID := "Y"; Balance := of_Z 100 |}.
Proof.
  exact (proj1 (CreateWallet_then_GetWallet (healthy 1) (healthy 2) "Y"
                  (CreateWallet (healthy 0) "X" empty_db).2 two_wallets
                  {| ID := "Y"; Balance := of_Z 100 |} eq_refl eq_refl)).
Defined.

(** X8: [CreateWallet] never resets a wallet.  Whatever id is drawn and
    whatever the driver does, every wallet that existed keeps its
    balance; when the id is already taken the call fails, and a failed
    call leaves the store exactly as it was. *)
Theorem CreateWallet_keeps_balances (env : Env) (id : string) (db : DB) :
  (forall j b, wallets db !! j = Some b ->
               wallets (CreateWallet env id db).2 !! j = Some b) /\
  (is_Some (wallets db !! id) -> is_ok (CreateWallet env id db).1 = false) /\
  (is_ok (CreateWallet env id db).1 = false -> (CreateWallet env id db).2 = db).
Proof.
  split; [|split].
  - intros j b Hj. unfold CreateWallet.
    destruct (faulty env CreateExec); [exact Hj|].
    destruct (wallets db !! id) eqn:Hid; [exact Hj|].
    cbn [snd wallets]. rewrite lookup_insert_ne; [exact Hj|congruence].
  - intros [b Hb]. unfold CreateWallet.
    destruct (faulty env CreateExec); [reflexivity|]. rewrite Hb. reflexivity.
  - destruct (CreateWallet env id db) as [[w|e] db'] eqn:Hc; cbn [fst snd is_ok];
      [discriminate|].
    intros _. exact (CreateWallet_err_inv _ _ _ _ _ Hc).
Qed.

Lemma CreateWallet_keeps_balances_witness :
  wallets (CreateWallet (healthy 3) "X" after_fifty).2 !! "X" = Some (of_Z 50) /\
  (CreateWallet (healthy 3) "X" after_fifty).2 = after_fifty.
Proof.
  destruct (CreateWallet_keeps_balances (healthy 3) "X" after_fifty) as (Hk & Ht & Hu).
  assert (Hx : wallets after_fifty !! "X" = Some (of_Z 50)) by (vm_compute; reflexivity).
  split.
  - exact (Hk "X" (of_Z 50) Hx).
  - apply Hu, Ht. exists (of_Z 50). exact Hx.
Defined.

(** ** Sequences of operations: what never happens *)

Lemma CreateWallet_dom (env : Env) (id : string) (db : DB) :
  dom (wallets db) ⊆ dom (wallets (CreateWallet env id db).2) /\
  dom (wallets (CreateWallet env id db).2) ⊆ {[ id ]} ∪ dom (wallets db).
Proof.
  unfold CreateWallet.
  destruct (faulty env CreateExec); [set_solver|].
  destruct (wallets db !! id); [set_solver|].
  cbn [snd wallets]. rewrite dom_insert_L. set_solver.
Qed.

(** X9: a wallet, once it exists, is never removed, and wallets come into
    being only through [CreateWallet]: after any sequence of operations
    the ids of the store are those it had before, together with some of
    the ids the sequence asked to create. *)
Theorem wallets_only_created (ops : list (Env * op)) (db : DB) :
  dom (wallets db) ⊆ dom (wallets (run ops db)) /\
  dom (wallets (run ops db)) ⊆ dom (wallets db) ∪ created_ids ops.
Proof.
  revert db. induction ops as [|[env o] rest IH]; intros db; cbn [run created_ids].
  - set_solver.
  - destruct (IH (exec env o db)) as [IH1 IH2]. clear IH.
    destruct o as [id|id|fromID toID amount|id]; cbn [exec] in IH1, IH2 |- *.
    + destruct (CreateWallet_dom env id db) as [Hc1 Hc2].
      split; [etrans; eassumption|].
      etrans; [exact IH2|]. clear IH1 IH2 Hc1.
      apply union_least; [|apply union_subseteq_r', union_subseteq_r].
      etrans; [exact Hc2|]. apply union_least.
      * apply union_subseteq_r', union_subseteq_l.
      * apply union_subseteq_l.
    + split; [exact IH1|exact IH2].
    + rewrite (Transfer_dom env fromID toID amount db) in IH1, IH2.
      split; [exact IH1|exact IH2].
    + split; [exact IH1|exact IH2].
Qed.

(** What one operation does to the log: nothing, or one record at the end. *)
Lemma exec_log (env : Env) (o : op) (db : DB) :
  transactions (exec env o db) = transactions db \/
  exists fromID toID amount fromBalance,
    o = OpTransfer fromID toID amount /\
    wallets db !! fromID = Some fromBalance /\
    transactions (exec env o db) = transactions db ++ [record_of env fromID toID amount].
Proof.
  destruct o as [id|id|fromID toID amount|id]; cbn [exec]; auto.
  - left. unfold CreateWallet.
    destruct (faulty env CreateExec); [reflexivity|].
    destruct (wallets db !! id); reflexivity.
  - destruct (Transfer env fromID toID amount db) as [[[]|e] db'] eqn:HT; cbn [snd].
    + apply Transfer_ok_inv in HT as (b & Hb & _ & ->).
      right. exists fromID, toID, amount, b. auto.
    + apply Transfer_err_inv in HT as [-> _]. auto.
Qed.


(** X10: the log is append-only.  No sequence of operations removes,
    rewrites or reorders a record: the log afterwards is the log before
    followed by new records, at most one for each operation. *)
Theorem log_append_only (ops : list (Env * op)) (db : DB) :
  exists new,
    transactions (run ops db) = transactions db ++ new /\
    (length new <= length ops)%nat.
Proof.
  revert db. induction ops as [|[env o] rest IH]; intros db; cbn [run].
  - exists []. rewrite app_nil_r. split; [reflexivity|apply le_n].
  - destruct (IH (exec env o db)) as (new & Hnew & Hlen).
    destruct (exec_log env o db) as [Hsame|(f & t & a & b & _ & _ & Hone)].
    + exists new. rewrite Hnew, Hsame. split; [reflexivity|].
      cbn [length]. apply le_S. exact Hlen.
    + exists (record_of env f t a :: new). rewrite Hnew, Hone, <- app_assoc.
      split; [reflexivity|]. cbn [length]. apply le_n_S. exact Hlen.
Qed.

Lemma exec_senders_exist (env : Env) (o : op) (db : DB) :
  senders_exist db -> senders_exist (exec env o db).
Proof.
  intros Hs. unfold senders_exist in *.
  assert (Hdom : forall id, is_Some (wallets db !! id) ->
                            is_Some (wallets (exec env o db) !! id)).
  { intros id Hid. apply elem_of_dom. apply elem_of_dom in Hid.
    destruct o as [i|i|f t a|i]; cbn [exec]; try exact Hid.
    - apply (proj1 (CreateWallet_dom env i db)). exact Hid.
    - rewrite Transfer_dom. exact Hid. }
  destruct (exec_log env o db) as [->|(f & t & a & b & _ & Hb & ->)].
  - eapply Forall_impl; [exact Hs|]. intros r. apply Hdom.
  - apply Forall_app. split.
    + eapply Forall_impl; [exact Hs|]. intros r. apply Hdom.
    + constructor; [|constructor]. cbn [record_of From]. apply Hdom. eauto.
Qed.

(** X11: every record of the log names a sender that has a wallet.  The
    property holds of the empty store and every operation keeps it; the
    recipient of a record, on the contrary, need not exist. *)
Theorem senders_always_exist (ops : list (Env * op)) (db : DB) :
  senders_exist db -> senders_exist (run ops db).
Proof.
  revert db. induction ops as [|[env o] rest IH]; intros db Hs; cbn [run];
    [exact Hs|].
  apply IH, exec_senders_exist, Hs.
Qed.

Lemma senders_always_exist_witness :
  senders_exist
    (run [(healthy 0, OpCreateAccount "X");
          (healthy 1, OpTransfer "X" "nonexistent" (of_Z 10));
          (healthy 2, OpTransfer "ghost" "X" (of_Z 10))] empty_db).
Proof.
  apply senders_always_exist. constructor.
Defined.

(** ** [GetHistory] *)

Lemma touches_spec (walletID : string) (r : Transaction) :
  touches walletID r = true <-> From r = walletID \/ To r = walletID.
Proof.
  unfold touches. rewrite orb_true_iff, !String.eqb_eq. reflexivity.
Qed.

(** X12: when the query is answered, [GetHistory] returns exactly the
    records of the log in which the wallet is the sender or the
    recipient: none is missed and none is about other wallets only.  It
    does so for any id, whether a wallet has it or not. *)
Theorem GetHistory_exact (env : Env) (walletID : string) (db : DB) :
  faulty env HistoryQuery = false ->
  exists history,
    GetHistory env walletID db = Ok history /\
    forall r, In r history <->
              In r (transactions db) /\ (From r = walletID \/ To r = walletID).
Proof.
  intros Hq. unfold GetHistory. rewrite Hq. eexists. split; [reflexivity|].
  intros r. rewrite filter_In, touches_spec. reflexivity.
Qed.

Lemma GetHistory_exact_witness :
  exists history,
    GetHistory (healthy 3) "nonexistent"
      (Transfer (healthy 2) "X" "nonexistent" (of_Z 10) two_wallets).2 = Ok history /\
    In (record_of (healthy 2) "X" "nonexistent" (of_Z 10)) history.
Proof.
  destruct (GetHistory_exact (healthy 3) "nonexistent"
              (Transfer (healthy 2) "X" "nonexistent" (of_Z 10) two_wallets).2 eq_refl)
    as (h & Hh & Hin).
  exists h. split; [exact Hh|]. apply Hin. split.
  - vm_compute. left. reflexivity.
  - right. reflexivity.
Defined.

(** X13: the history of a wallet changes only through transfers it takes
    part in.  A [Transfer] between other wallets, whether it succeeds or
    fails, and a [CreateWallet] of any id leave [GetHistory] of the
    wallet as it was. *)
Theorem GetHistory_frame (env env' : Env) (walletID : string) (db : DB) :
  (forall fromID toID amount,
     fromID <> walletID -> toID <> walletID ->
     GetHistory env walletID (Transfer env' fromID toID amount db).2 =
     GetHistory env walletID db) /\
  (forall id,
     GetHistory env walletID (CreateWallet env' id db).2 = GetHistory env walletID db).
Proof.
  split.
  - intros fromID toID amount Hf Ht.
    destruct (Transfer_cases env' fromID toID amount db) as [[e ->]| ->];
      cbn [snd]; [reflexivity|].
    unfold GetHistory. destruct (faulty env HistoryQuery); [reflexivity|].
    unfold committed; cbn [transactions]. rewrite List.filter_app. cbn [List.filter].
    assert (Hno : touches walletID (record_of env' fromID toID amount) = false).
    { apply not_true_is_false. rewrite touches_spec. cbn [record_of From To]. tauto. }
    rewrite Hno, app_nil_r. reflexivity.
  - intros id. unfold GetHistory, CreateWallet.
    destruct (faulty env' CreateExec); [reflexivity|].
    destruct (wallets db !! id); reflexivity.
Qed.

Lemma GetHistory_frame_witness :
  GetHistory (healthy 3) "Z" (Transfer (healthy 2) "X" "Y" (of_Z 50) two_wallets).2 =
  GetHistory (healthy 3) "Z" two_wallets.
Proof.
  apply (proj1 (GetHistory_frame (healthy 3) (healthy 2) "Z" two_wallets)); discriminate.
Defined.



(** ** Transfers on separate wallets *)

(** X15: two transfers that share no wallet do not disturb each other.
    On a store that answers, each has the same result whether it runs
    first or second, and both orders leave the same balances (the log
    holds the two records in the order of the calls). *)
Theorem Transfer_independent (env1 env2 : Env) (f1 t1 f2 t2 : string) (a1 a2 : float64) (db : DB) :
  responsive env1 -> responsive env2 ->
  f1 <> f2 -> f1 <> t2 -> t1 <> f2 -> t1 <> t2 ->
  let first1 := Transfer env1 f1 t1 a1 db in
  let first2 := Transfer env2 f2 t2 a2 db in
  (Transfer env2 f2 t2 a2 first1.2).1 = first2.1 /\
  (Transfer env1 f1 t1 a1 first2.2).1 = first1.1 /\
  wallets (Transfer env2 f2 t2 a2 first1.2).2 = wallets (Transfer env1 f1 t1 a1 first2.2).2.
Proof.
  intros Hr1 Hr2 Hff Hft Htf Htt first1 first2.
  assert (H1 : wallets first1.2 !! f2 = wallets db !! f2).
  { apply Transfer_other_balance; congruence. }
  assert (H2 : wallets first2.2 !! f1 = wallets db !! f1).
  { apply Transfer_other_balance; congruence. }
  subst first1 first2. revert H1 H2.
  rewrite !Transfer_responsive by assumption.
  destruct (wallets db !! f1) as [b1|] eqn:Hb1;
    [destruct (ltb b1 a1) eqn:Hl1|];
    (destruct (wallets db !! f2) as [b2|] eqn:Hb2;
     [destruct (ltb b2 a2) eqn:Hl2|]);
    cbn [fst snd]; intros H1 H2;
    rewrite ?H1, ?H2, ?Hb1, ?Hb2, ?Hl1, ?Hl2; cbn [fst snd];
    try (repeat split; reflexivity).
  repeat split. unfold committed; cbn [wallets].
  rewrite (alter_alter_ne _ _ _ f2 t1) by congruence.
  rewrite (alter_alter_ne _ _ _ f2 f1) by congruence.
  rewrite (alter_alter_ne _ _ _ t2 t1) by congruence.
  rewrite (alter_alter_ne _ _ _ t2 f1) by congruence.
  reflexivity.
Qed.

Lemma Transfer_independent_witness :
  let db := run [(healthy 2, OpCreateAccount "Z"); (healthy 3, OpCreateAccount "W")]
              two_wallets in
  wallets (Transfer (healthy 5) "Z" "W" (of_Z 7) (Transfer (healthy 4) "X" "Y" (of_Z 30) db).2).2 =
  wallets (Transfer (healthy 4) "X" "Y" (of_Z 30) (Transfer (healthy 5) "Z" "W" (of_Z 7) db).2).2.
Proof.
  intros db.
  apply (Transfer_independent (healthy 4) (healthy 5) "X" "Y" "Z" "W" (of_Z 30) (of_Z 7) db
           (healthy_responsive 4) (healthy_responsive 5)); discriminate.
Defined.

(** * Properties of the HTTP handlers *)

(** X16: [TransferHandler] answers 200 or 400 and nothing else.  It
    answers 200 exactly when the body was decoded and the store committed
    the transfer; every 400, whether for a body that cannot be decoded,
    an unknown sender, insufficient funds or a driver fault, leaves the
    store as it was. *)
Theorem TransferHandler_outcomes (env : Env) (walletId : string)
    (request : option (string * float64)) (db : DB) :
  let out := TransferHandler env walletId request db in
  (Status out.1 = StatusOK /\
   exists to amount,
     request = Some (to, amount) /\
     Transfer env walletId to amount db = (Ok tt, out.2) /\
     out.2 = committed env walletId to amount db) \/
  (Status out.1 = StatusBadRequest /\ out.2 = db /\
   (request = None /\ Data out.1 = ErrorText "invalid request" \/
    exists to amount e,
      request = Some (to, amount) /\
      Transfer env walletId to amount db = (Err e, db) /\
      Data out.1 = ErrorOf e)).
Proof.
  unfold TransferHandler. destruct request as [[to amount]|]; cbn zeta.
  2:{ right. cbn. auto. }
  destruct (Transfer_cases env walletId to amount db) as [[e HT]|HT];
    rewrite HT; cbn [fst snd responseJSON Status Data].
  - right. split; [reflexivity|]. split; [reflexivity|]. right. eauto 6.
  - left. split; [reflexivity|]. eauto 6.
Qed.

(** X17: an unknown wallet is reported differently by the two routes.
    On a store that answers, sending from a wallet that does not exist is
    answered 400 and reading it is answered 404, both with the message of
    [sql.ErrNoRows]; neither call changes the store. *)
Theorem unknown_wallet_statuses (env : Env) (walletId to : string) (amount : float64) (db : DB) :
  responsive env ->
  wallets db !! walletId = None ->
  TransferHandler env walletId (Some (to, amount)) db =
    (responseJSON StatusBadRequest (ErrorOf ErrNoRows), db) /\
  GetWalletHandler env walletId db = responseJSON StatusNotFound (ErrorOf ErrNoRows).
Proof.
  intros Hr Hw. unfold TransferHandler, GetWalletHandler, GetWallet.
  rewrite Transfer_responsive by exact Hr. rewrite Hr, Hw. split; reflexivity.
Qed.

Lemma unknown_wallet_statuses_witness :
  Status (TransferHandler (healthy 2) "ghost" (Some ("X", of_Z 10)) two_wallets).1 = 400 /\
  Status (GetWalletHandler (healthy 2) "ghost" two_wallets) = 404.
Proof.
  destruct (unknown_wallet_statuses (healthy 2) "ghost" "X" (of_Z 10) two_wallets
              (healthy_responsive 2) eq_refl) as [-> ->].
  split; reflexivity.
Defined.

(** X18: [GetWalletHandler] answers 200 exactly when the store answers
    the query and has a row for the id, and then the body is that id with
    the stored balance; in every other case, a driver fault included, it
    answers 404. *)
Theorem GetWalletHandler_status (env : Env) (walletId : string) (db : DB) :
  (Status (GetWalletHandler env walletId db) = StatusOK <->
   faulty env WalletQueryRow = false /\ is_Some (wallets db !! walletId)) /\
  (Status (GetWalletHandler env walletId db) = StatusOK \/
   Status (GetWalletHandler env walletId db) = StatusNotFound) /\
  (forall b, faulty env WalletQueryRow = false ->
             wallets db !! walletId = Some b ->
             GetWalletHandler env walletId db =
               responseJSON StatusOK (WalletData {| ID := walletId; Balance := b |})).
Proof.
  unfold GetWalletHandler, GetWallet.
  destruct (faulty env WalletQueryRow); cbn [responseJSON Status].
  - split; [|split]; [split; [discriminate|intros [H _]; discriminate H] | auto | discriminate].
  - destruct (wallets db !! walletId) as [b|]; cbn [responseJSON Status].
    + split; [|split]; [split; eauto | auto | intros b' _ H; injection H as <-; reflexivity].
    + split; [|split];
        [split; [discriminate|intros [_ [b H]]; discriminate H] | auto | discriminate].
Qed.

Lemma GetWalletHandler_status_witness :
  GetWalletHandler (healthy 3) "Y" after_fifty =
    responseJSON 200 (WalletData {| ID := "Y"; Balance := of_Z 150 |}).
Proof.
  apply (proj2 (proj2 (GetWalletHandler_status (healthy 3) "Y" after_fifty))).
  - reflexivity.
  - vm_compute. reflexivity.
Defined.

(** X19: [GetHistoryHandler] does not look for the wallet.  When the
    store answers the query it answers 200 for every id, with the records
    about that id, so an id that no wallet has gets 200 and an empty
    history as long as no record names it; the handler answers 404 only
    on a driver fault. *)
Theorem GetHistoryHandler_status (env : Env) (walletId : string) (db : DB) :
  (Status (GetHistoryHandler env walletId db) = StatusOK <->
   faulty env HistoryQuery = false) /\
  (Status (GetHistoryHandler env walletId db) = StatusNotFound <->
   faulty env HistoryQuery = true) /\
  (faulty env HistoryQuery = false ->
   Forall (fun r => touches walletId r = false) (transactions db) ->
   GetHistoryHandler env walletId db = responseJSON StatusOK (HistoryData [])).
Proof.
  unfold GetHistoryHandler, GetHistory.
  destruct (faulty env HistoryQuery); cbn [responseJSON Status].
  - split; [|split]; [split; discriminate | split; reflexivity | discriminate].
  - split; [|split]; [split; reflexivity | split; discriminate |].
    intros _ Hnone. rewrite filter_none by exact Hnone. reflexivity.
Qed.

Lemma GetHistoryHandler_status_witness :
  wallets after_fifty !! "ghost" = None /\
  GetHistoryHandler (healthy 3) "ghost" after_fifty = responseJSON 200 (HistoryData []).
Proof.
  split; [vm_compute; reflexivity|].
  apply (proj2 (proj2 (GetHistoryHandler_status (healthy 3) "ghost" after_fifty)));
    [reflexivity|].
  vm_compute. repeat constructor.
Defined.

(** X20: what [CreateWalletHandler] answers is what a later read
    answers.  Either it answers 200 with the new wallet, its id and the
    balance 100, and [GetWalletHandler] for that id then gives the very
    same response; or it answers 500 and the store is unchanged. *)
Theorem CreateWalletHandler_then_read (env env' : Env) (id : string) (db : DB) :
  faulty env' WalletQueryRow = false ->
  let out := CreateWalletHandler env id db in
  (out.1 = responseJSON StatusOK (WalletData {| ID := id; Balance := of_Z 100 |}) /\
   wallets db !! id = None /\
   GetWalletHandler env' id out.2 = out.1) \/
  (out.1 = responseJSON StatusInternalServerError (ErrorText "failed to create wallet") /\
   out.2 = db).
Proof.
  intros Hq. unfold CreateWalletHandler.
  destruct (CreateWallet env id db) as [[w|e] db'] eqn:Hc; cbn zeta; cbn [fst snd].
  - left.
    apply CreateWallet_ok_inv in Hc as (Hfree & -> & ->).
    split; [reflexivity|]. split; [exact Hfree|].
    unfold GetWalletHandler, GetWallet. rewrite Hq. cbn [wallets].
    rewrite lookup_insert_eq. reflexivity.
  - right. split; [reflexivity|]. exact (CreateWallet_err_inv _ _ _ _ _ Hc).
Qed.

Lemma CreateWalletHandler_then_read_witness :
  GetWalletHandler (healthy 1) "X" (CreateWalletHandler (healthy 0) "X" empty_db).2 =
    responseJSON 200 (WalletData {| ID := "X"; Balance := of_Z 100 |}) /\
  (CreateWalletHandler (healthy 2) "X" two_wallets).2 = two_wallets.
Proof.
  split.
  - destruct (CreateWalletHandler_then_read (healthy 0) (healthy 1) "X" empty_db eq_refl)
      as [(H1 & _ & H2)|[H1 _]].
    + rewrite H2. exact H1.
    + vm_compute in H1. discriminate H1.
  - destruct (CreateWalletHandler_then_read (healthy 2) (healthy 1) "X" two_wallets eq_refl)
      as [(_ & H1 & _)|[_ H2]].
    + vm_compute in H1. discriminate H1.
    + exact H2.
Defined.


